(** * notion_dedupe: a shallow embedding of [notion_dedupe.py]

    The script fetches every page of a Notion database, projects each page
    to a small record, groups the records by title, keeps the newest record
    of every title that occurs twice or more, and archives the others.

    The embedding follows the script function by function:
    [query_database], [get_all_pages], [extract_page_info],
    [find_duplicates], [archive_page] and [main].  The store is an
    argument of the run: the replies it gives to the queries and to the
    archival requests.  The script leaves at once when [NOTION_TOKEN] is
    not set; the runs modelled here are those in which it is set.

    The file has three parts: the program, the definitions the
    statements use, and the properties with their proofs. *)

From Stdlib Require Import String Ascii.
From Stdlib Require Import List NArith ZArith Bool Arith Lia.
From Stdlib Require Import Permutation Sorted.
Import ListNotations.

Set Implicit Arguments.
Set Warnings "-register-all".

(** * The program *)

(** ** Python strings

    A Python [str] is a sequence of Unicode code points; [<] on [str] is
    the lexicographic order of the code points. *)

Definition pystr := list N.

(** ASCII literals. *)
Definition u (s : string) : pystr :=
  List.map N_of_ascii (list_ascii_of_string s).

Fixpoint pystr_eqb (a b : pystr) : bool :=
  match a, b with
  | [], [] => true
  | x :: a', y :: b' => N.eqb x y && pystr_eqb a' b'
  | _, _ => false
  end.

(** [a < b] on [str]. *)
Fixpoint pystr_lt (a b : pystr) : bool :=
  match a, b with
  | _, [] => false
  | [], _ :: _ => true
  | x :: a', y :: b' =>
      if N.ltb x y then true
      else if N.eqb x y then pystr_lt a' b'
      else false
  end.

(** [a <= b] on [str]. *)
Definition pystr_le (a b : pystr) : bool := negb (pystr_lt b a).

(** [bool(s)] for a [str]: the empty string is falsy. *)
Definition nonempty (s : pystr) : bool :=
  match s with [] => false | _ :: _ => true end.

(** [c.isspace()] for one code point: the 29 code points CPython treats as
    whitespace. *)
Definition is_space (c : N) : bool :=
  ((9 <=? c) && (c <=? 13)
   || (28 <=? c) && (c <=? 32)
   || (c =? 133) || (c =? 160) || (c =? 5760)
   || (8192 <=? c) && (c <=? 8202)
   || (c =? 8232) || (c =? 8233) || (c =? 8239) || (c =? 8287)
   || (c =? 12288))%N.

Fixpoint lstrip (s : pystr) : pystr :=
  match s with
  | [] => []
  | c :: s' => if is_space c then lstrip s' else s
  end.

Definition rstrip (s : pystr) : pystr := rev (lstrip (rev s)).

(** [s.strip()]. *)
Definition strip (s : pystr) : pystr := rstrip (lstrip s).

(** ** JSON values, as [response.json()] returns them

    [JFloat] carries the 64 bits of the IEEE double.  [JDict] is an
    association list; it denotes the [dict] whose value at a key is the
    first binding of that key. *)

Inductive json : Type :=
| JNull
| JBool (b : bool)
| JInt (z : Z)
| JFloat (bits : Z)
| JStr (s : pystr)
| JList (l : list json)
| JDict (d : list (pystr * json)).

(** [bool(v)]. *)
Definition truthy (v : json) : bool :=
  match v with
  | JNull => false
  | JBool b => b
  | JInt z => negb (Z.eqb z 0)
  | JFloat bits => negb (Z.eqb (Z.land bits (Z.ones 63)) 0)
  | JStr s => nonempty s
  | JList l => match l with [] => false | _ :: _ => true end
  | JDict d => match d with [] => false | _ :: _ => true end
  end.

Fixpoint lookup (k : pystr) (d : list (pystr * json)) : option json :=
  match d with
  | [] => None
  | (k', v) :: d' => if pystr_eqb k' k then Some v else lookup k d'
  end.

(** The keys of a dict, each once, in insertion order. *)
Fixpoint dict_keys (seen : list pystr) (d : list (pystr * json)) : list json :=
  match d with
  | [] => []
  | (k, _) :: d' =>
      if existsb (pystr_eqb k) seen then dict_keys seen d'
      else JStr k :: dict_keys (k :: seen) d'
  end.

(** ** Exceptions *)

Inductive exn : Type :=
| KeyError
| TypeError
| AttributeError
| RequestException
| EOFError
| UnicodeEncodeError.

Inductive result (A : Type) : Type :=
| Ok (a : A)
| Raise (e : exn).

Arguments Ok {A} a.
Arguments Raise {A} e.

Definition bind {A B} (m : result A) (f : A -> result B) : result B :=
  match m with
  | Ok a => f a
  | Raise e => Raise e
  end.

Declare Scope py_scope.
Delimit Scope py_scope with py.
Notation "x <- m ;; k" := (bind m (fun x => k))
  (at level 61, m at next level, right associativity) : py_scope.
Local Open Scope py_scope.

Fixpoint mapM {A B} (f : A -> result B) (l : list A) : result (list B) :=
  match l with
  | [] => Ok []
  | a :: l' => b <- f a ;; bs <- mapM f l' ;; Ok (b :: bs)
  end.

(** [v[k]] for a [str] key [k]: only a dict can be subscripted by a
    string. *)
Definition subscript (v : json) (k : pystr) : result json :=
  match v with
  | JDict d => match lookup k d with Some x => Ok x | None => Raise KeyError end
  | _ => Raise TypeError
  end.

(** [v.get(k, default)]: only a dict has [get]. *)
Definition py_get (v : json) (k : pystr) (default : json) : result json :=
  match v with
  | JDict d => Ok (match lookup k d with Some x => x | None => default end)
  | _ => Raise AttributeError
  end.

(** [for t in v]: a list yields its elements, a string its characters, a
    dict its keys; nothing else is iterable. *)
Definition py_iter (v : json) : result (list json) :=
  match v with
  | JList l => Ok l
  | JStr s => Ok (List.map (fun c => JStr [c]) s)
  | JDict d => Ok (dict_keys [] d)
  | _ => Raise TypeError
  end.

(** [sep.join(parts)] with [sep = ""]: every part must be a [str]. *)
Fixpoint join (parts : list json) : result pystr :=
  match parts with
  | [] => Ok []
  | JStr s :: rest => r <- join rest ;; Ok (s ++ r)
  | _ :: _ => Raise TypeError
  end.

(** ** [extract_page_info] *)

(** The dict [extract_page_info] returns.  [created_time] is whatever the
    page carried; [find_duplicates] compares two of them with [<], which
    this development models for strings ([time := pystr]). *)
Record page_info (time : Type) : Type := mk_page_info {
  id : json;
  title : pystr;
  content : pystr;
  created_time : time;
  url : json
}.

Arguments mk_page_info {time}.
Arguments id {time}.
Arguments title {time}.
Arguments content {time}.
Arguments created_time {time}.
Arguments url {time}.

Definition key_id : pystr := u "id".
Definition key_properties : pystr := u "properties".
Definition key_name : pystr := [21517; 31216]%N.      (* U+540D U+79F0 *)
Definition key_body : pystr := [27491; 25991]%N.      (* U+6B63 U+6587 *)
Definition key_title : pystr := u "title".
Definition key_rich_text : pystr := u "rich_text".
Definition key_plain_text : pystr := u "plain_text".
Definition key_created_time : pystr := u "created_time".
Definition key_url : pystr := u "url".

(** ["".join([t.get("plain_text", "") for t in segments])] *)
Definition plain_text_of (segments : json) : result pystr :=
  items <- py_iter segments ;;
  texts <- mapM (fun t => py_get t key_plain_text (JStr [])) items ;;
  join texts.

(** The text of one property: [""] unless [prop.get(field)] is truthy. *)
Definition property_text (prop : json) (field : pystr) : result pystr :=
  v <- py_get prop field JNull ;;
  if truthy v then
    segments <- subscript prop field ;;
    plain_text_of segments
  else Ok [].

Definition extract_page_info (page : json) : result (page_info json) :=
  page_id <- subscript page key_id ;;
  props <- py_get page key_properties (JDict []) ;;
  title_prop <- py_get props key_name (JDict []) ;;
  title <- property_text title_prop key_title ;;
  props' <- py_get page key_properties (JDict []) ;;
  content_prop <- py_get props' key_body (JDict []) ;;
  content <- property_text content_prop key_rich_text ;;
  created_time <- py_get page key_created_time (JStr []) ;;
  url <- py_get page key_url (JStr []) ;;
  Ok (mk_page_info page_id (strip title) (strip content) created_time url).

(** ** [find_duplicates] *)

(** A projected record whose [created_time] is a string, as the Notion API
    sends it. *)
Definition page := page_info pystr.

(** [by_title[k].append(p)] on a [defaultdict(list)]: a dict keeps its
    keys in insertion order, so a new key goes to the end. *)
Fixpoint append_to (T : Type) (k : pystr) (p : page_info T)
         (d : list (pystr * list (page_info T)))
  : list (pystr * list (page_info T)) :=
  match d with
  | [] => [(k, [p])]
  | (k', l) :: d' =>
      if pystr_eqb k' k then (k', l ++ [p]) :: d'
      else (k', l) :: append_to k p d'
  end.

(** The first loop of [find_duplicates]; it reads the titles only, so it
    is the same whatever the [created_time] of the records are. *)
Definition by_title (T : Type) (pages : list (page_info T))
  : list (pystr * list (page_info T)) :=
  fold_left
    (fun d p => if nonempty (title p) then append_to (title p) p d else d)
    pages [].

(** One step of a stable sort by [created_time], newest first: [x] came
    before every element of [l] in the input, so it goes in front of the
    first element that is not newer than it. *)
Fixpoint insert_newest_first (x : page) (l : list page) : list page :=
  match l with
  | [] => [x]
  | y :: l' =>
      if pystr_lt (created_time x) (created_time y)
      then y :: insert_newest_first x l'
      else x :: l
  end.

(** [sorted(page_list, key=lambda x: x["created_time"], reverse=True)]:
    descending by key, and (as [sorted] promises also with [reverse])
    records with equal keys stay in their original order. *)
Definition sorted_newest_first (l : list page) : list page :=
  fold_right insert_newest_first [] l.

(** One entry of the [duplicates] dict. *)
Record dup_info : Type := mk_dup_info {
  keep : page;
  remove : list page
}.

(** The second loop of [find_duplicates]: what one entry of [by_title]
    adds to [duplicates].  The pattern [first :: _ :: _] is
    [len(page_list) > 1]; [first] is only the default of [nth], never
    used since the sorted list is as long as [page_list]. *)
Definition duplicates_of (entry : pystr * list page)
  : list (pystr * dup_info) :=
  let (t, page_list) := entry in
  match page_list with
  | first :: _ :: _ =>
      let sorted_pages := sorted_newest_first page_list in
      [(t, mk_dup_info (nth 0 sorted_pages first) (skipn 1 sorted_pages))]
  | _ => []
  end.

(** [find_duplicates]: the [duplicates] dict as its list of items, in
    insertion order. *)
Definition find_duplicates (pages : list page) : list (pystr * dup_info) :=
  flat_map duplicates_of (by_title pages).

(** ** The remote store and [main] *)

(** What the script sends to the store. *)
Inductive event : Type :=
| Query (start_cursor : option json)   (* POST .../query; the payload's
                                          [start_cursor], when it has one *)
| Archive (page_id : json).            (* PATCH .../pages/{page_id} *)

(** The store, as one run of the script sees it: the answers to its
    successive queries, and the answer to its [n]-th archival request.
    [Raise] stands for an exception of [requests] ([post], [patch],
    [raise_for_status] or [json]). *)
Record remote : Type := mk_remote {
  query_replies : list (result json);
  archive_reply : nat -> json -> result json
}.

(** The [start_cursor] entry of the payload: [query_database] adds it
    under [if start_cursor:]. *)
Definition payload_cursor (start_cursor : json) : option json :=
  if truthy start_cursor then Some start_cursor else None.

(** [query_database]: the request sent, and the reply of the store as its
    result. *)
Definition query_database (start_cursor : json) (reply : result json)
  : event * result json :=
  (Query (payload_cursor start_cursor), reply).

(** [archive_page], as the [n]-th archival request of the run. *)
Definition archive_page (reply : nat -> json -> result json) (n : nat)
           (page_id : json) : event * result json :=
  (Archive page_id, reply n page_id).

Definition key_results : pystr := u "results".
Definition key_has_more : pystr := u "has_more".
Definition key_next_cursor : pystr := u "next_cursor".

(** The three reads of one loop iteration of [get_all_pages]:
    [result.get("results", [])] as [extend] iterates it,
    [result.get("has_more", False)] and [result.get("next_cursor")]. *)
Definition read_page (res : json) : result (list json * json * json) :=
  results <- py_get res key_results (JList []) ;;
  items <- py_iter results ;;
  has_more <- py_get res key_has_more (JBool false) ;;
  next_cursor <- py_get res key_next_cursor JNull ;;
  Ok (items, has_more, next_cursor).

(** The [while has_more] loop of [get_all_pages].  Each iteration sends
    one query and takes the next reply of the store.  The outcome is
    [None] when the replies run out while [has_more] is still truthy: the
    loop has not finished within these replies. *)
Fixpoint get_all_pages_loop (replies : list (result json))
         (all_pages : list json) (start_cursor : json)
  : list event * option (result (list json)) :=
  match replies with
  | [] => ([Query (payload_cursor start_cursor)], None)
  | reply :: replies' =>
      let (request, answer) := query_database start_cursor reply in
      match res <- answer ;; read_page res with
      | Raise e => ([request], Some (Raise e))
      | Ok (items, has_more, next_cursor) =>
          if truthy has_more then
            let (events, out) :=
              get_all_pages_loop replies' (all_pages ++ items) next_cursor in
            (request :: events, out)
          else ([request], Some (Ok (all_pages ++ items)))
      end
  end.

(** [get_all_pages]: [has_more = True], [start_cursor = None] before the
    first iteration. *)
Definition get_all_pages (replies : list (result json))
  : list event * option (result (list json)) :=
  get_all_pages_loop replies [] JNull.

(** One line of the archival report. *)
Inductive report_line : Type :=
| Archived (title : pystr)
| ArchiveFailed (title : pystr) (e : exn).

(** The body of the inner archival loop: [archive_page(page["id"])] in a
    [try] whose [except Exception] reports the failure and goes on. *)
Definition archive_one (reply : nat -> json -> result json) (n : nat)
           (t : pystr) (p : page) : event * report_line :=
  let (request, answer) := archive_page reply n (id p) in
  (request,
   match answer with
   | Ok _ => Archived t
   | Raise e => ArchiveFailed t e
   end).

(** [for page in dup_info["remove"]]; [n] counts the archival requests
    sent so far. *)
Fixpoint archive_group (reply : nat -> json -> result json) (n : nat)
         (t : pystr) (to_remove : list page)
  : list event * list report_line * nat :=
  match to_remove with
  | [] => ([], [], n)
  | p :: rest =>
      let (e, line) := archive_one reply n t p in
      let '(events, lines, n') := archive_group reply (S n) t rest in
      (e :: events, line :: lines, n')
  end.

(** [for title, dup_info in duplicates.items()] *)
Fixpoint archive_all (reply : nat -> json -> result json) (n : nat)
         (duplicates : list (pystr * dup_info))
  : list event * list report_line * nat :=
  match duplicates with
  | [] => ([], [], n)
  | (t, g) :: rest =>
      let '(events, lines, n') := archive_group reply n t (remove g) in
      let '(events', lines', n'') := archive_all reply n' rest in
      (events ++ events', lines ++ lines', n'')
  end.

(** A projected record as the Grouper takes it, when its [created_time]
    is a string. *)
Definition with_str_time (info : page_info json) : option page :=
  match created_time info with
  | JStr s => Some (mk_page_info (id info) (title info) (content info) s
                      (url info))
  | _ => None
  end.

Fixpoint all_with_str_time (infos : list (page_info json))
  : option (list page) :=
  match infos with
  | [] => Some []
  | info :: rest =>
      match with_str_time info, all_with_str_time rest with
      | Some p, Some ps => Some (p :: ps)
      | _, _ => None
      end
  end.

(** ** [find_duplicates] as [main] calls it *)

(** [find_duplicates] on the dicts [extract_page_info] returns, whose
    [created_time] is any JSON value.  The script reads [created_time]
    only in the [sorted] of a title that two or more records carry; the
    result is [None] when such a group holds a [created_time] that is not
    a string, the comparison of [sorted] being modelled for strings. *)
Definition duplicates_of_info (entry : pystr * list (page_info json))
  : option (list (pystr * dup_info)) :=
  let (t, page_list) := entry in
  match page_list with
  | _ :: _ :: _ =>
      match all_with_str_time page_list with
      | Some typed => Some (duplicates_of (t, typed))
      | None => None
      end
  | _ => Some []
  end.

Fixpoint collect_duplicates (entries : list (pystr * list (page_info json)))
  : option (list (pystr * dup_info)) :=
  match entries with
  | [] => Some []
  | entry :: rest =>
      match duplicates_of_info entry, collect_duplicates rest with
      | Some found, Some more => Some (found ++ more)
      | _, _ => None
      end
  end.

Definition find_duplicates_info (infos : list (page_info json))
  : option (list (pystr * dup_info)) :=
  collect_duplicates (by_title infos).

(** ** The summary of [main] *)

(** ["(空)"], shown for an empty content. *)
Definition empty_mark : pystr := [40; 31354; 41]%N.    (* ( U+7A7A ) *)

(** [content[:30] + "..." if content else "(空)"] *)
Definition preview (content : pystr) : pystr :=
  if nonempty content then firstn 30 content ++ u "..." else empty_mark.

(** What one line of the summary shows of a record:
    [created_time[:10]] and the preview of its content. *)
Definition summary_line (p : page) : pystr * pystr :=
  (firstn 10 (created_time p), preview (content p)).

(** The summary loop of [main]: per group the title, the line of [keep]
    and the lines of [remove]; [total_to_remove] adds up
    [len(remove_list)]. *)
Fixpoint summary (duplicates : list (pystr * dup_info)) (total_to_remove : nat)
  : list (pystr * (pystr * pystr) * list (pystr * pystr)) * nat :=
  match duplicates with
  | [] => ([], total_to_remove)
  | (t, dup) :: rest =>
      let remove_list := remove dup in
      let total := total_to_remove + length remove_list in
      let (blocks, total') := summary rest total in
      ((t, summary_line (keep dup), map summary_line remove_list) :: blocks,
       total')
  end.

(** The number the summary announces. *)
Definition total_to_remove (duplicates : list (pystr * dup_info)) : nat :=
  snd (summary duplicates 0).

(** The console encodes in UTF-8 and is strict about it: [print] raises
    [UnicodeEncodeError] exactly when its text holds a surrogate code
    point. *)
Definition is_surrogate (c : N) : bool := ((55296 <=? c) && (c <=? 57343))%N.

Definition printable (s : pystr) : bool :=
  forallb (fun c => negb (is_surrogate c)) s.

(** The prints of one group of the summary: its title, the line of
    [keep] and the lines of [remove]; the fixed text around them is
    printable. *)
Definition block_printable
           (block : pystr * (pystr * pystr) * list (pystr * pystr)) : bool :=
  let '(t, kept, removed) := block in
  printable t
  && forallb (fun line => printable (fst line) && printable (snd line))
       (kept :: removed).

(** The summary loop with its prints: [total_to_remove] when all of them
    succeed. *)
Definition print_summary (duplicates : list (pystr * dup_info))
  : result nat :=
  let (blocks, total) := summary duplicates 0 in
  if forallb block_printable blocks then Ok total
  else Raise UnicodeEncodeError.

(** ** [main] *)

Record args : Type := mk_args {
  dry_run : bool;
  auto : bool
}.

(** How a run ends. *)
Inductive terminal : Type :=
| NoDuplicates            (* "no duplicates found" *)
| PreviewRendered         (* "preview rendered" *)
| AbortedByUser           (* "aborted by user" *)
| RetirementAttempted     (* "retirement attempted" *)
| Crashed (e : exn)       (* an exception left [main] *)
| Unfinished              (* the query replies ran out *)
| TimeNotStr.             (* a title carried twice has a record whose
                             [created_time] is not a string: the
                             comparison of [sorted] is modelled for
                             strings only, and the run is followed up to
                             the call of [find_duplicates] only; its
                             events are the queries sent until then *)

Record run : Type := mk_run {
  events : list event;
  report : list report_line;
  ending : terminal
}.

Section Main.

(** [str.lower], which the confirmation applies to the operator's
    answer. *)
Variable lower : pystr -> pystr.

(** [input(...).strip().lower() == 'y']; [stdin] is the line the
    operator types, [None] at end of input. *)
Definition confirmed (stdin : option pystr) : result bool :=
  match stdin with
  | None => Raise EOFError
  | Some line => Ok (pystr_eqb (lower (strip line)) (u "y"))
  end.

(** [main].  Of its prints, those of the summary can fail, on a title,
    a date or a preview that the console cannot encode; the lines of the
    archival loop print a title the summary has printed already, and the
    text of an exception, taken to be printable. *)
Definition main (a : args) (r : remote) (stdin : option pystr) : run :=
  let (queries, fetched) := get_all_pages (query_replies r) in
  match fetched with
  | None => mk_run queries [] Unfinished
  | Some (Raise e) => mk_run queries [] (Crashed e)
  | Some (Ok all_pages) =>
      match mapM extract_page_info all_pages with
      | Raise e => mk_run queries [] (Crashed e)
      | Ok pages_info =>
          match find_duplicates_info pages_info with
          | None => mk_run queries [] TimeNotStr
          | Some [] => mk_run queries [] NoDuplicates
          | Some ((_ :: _) as duplicates) =>
              match print_summary duplicates with
              | Raise e => mk_run queries [] (Crashed e)
              | Ok _ =>
                  if dry_run a then mk_run queries [] PreviewRendered
                  else
                    match (if auto a then Ok true else confirmed stdin) with
                    | Raise e => mk_run queries [] (Crashed e)
                    | Ok false => mk_run queries [] AbortedByUser
                    | Ok true =>
                        let '(archivals, lines, _) :=
                          archive_all (archive_reply r) 0 duplicates in
                        mk_run (queries ++ archivals) lines
                          RetirementAttempted
                    end
              end
          end
      end
  end.

End Main.

(** * Definitions used in the statements *)

(** ** Records and groups *)

(** The records of one output group. *)
Definition members (g : dup_info) : list page := keep g :: remove g.

(** The records of the input that carry title [k], in input order. *)
Definition titled (k : pystr) (pages : list page) : list page :=
  filter (fun p => pystr_eqb (title p) k) pages.

(** The same for records with any kind of [created_time]. *)
Definition titled_in (T : Type) (k : pystr) (pages : list (page_info T))
  : list (page_info T) :=
  filter (fun p => pystr_eqb (title p) k) pages.

(** A record with title [t] created at [c]; [c] also serves as its id. *)
Definition note (t c : string) : page :=
  mk_page_info (JStr (u c)) (u t) [] (u c) (JStr []).

(** ** The order of a sorted group *)

(** [a] is at least as new as [b]. *)
Definition newer_or_same (a b : page) : Prop :=
  pystr_le (created_time b) (created_time a) = true.

(** The records of a list created at [t], in the order of the list. *)
Definition created_at (t : pystr) (l : list page) : list page :=
  filter (fun p => pystr_eqb (created_time p) t) l.

(** ** The keys of the first loop *)

(** The distinct strings of a list, each at its first occurrence. *)
Fixpoint first_seen (ks : list pystr) : list pystr :=
  match ks with
  | [] => []
  | k :: rest =>
      k :: filter (fun k' => negb (pystr_eqb k' k)) (first_seen rest)
  end.

(** The keys the first loop meets, in input order. *)
Definition keyed (pages : list page) : list pystr :=
  map title (filter (fun p => nonempty (title p)) pages).

(** The same for records with any kind of [created_time]. *)
Definition keyed_in (T : Type) (pages : list (page_info T)) : list pystr :=
  map title (filter (fun p => nonempty (title p)) pages).

(** ** Shared titles *)

(** [len(by_title[k]) > 1] *)
Definition shared (pages : list page) (k : pystr) : bool :=
  1 <? length (titled k pages).

(** ** The Grouper: keep and remove *)

Definition groceries_input : list page :=
  [note "Groceries" "2024-01-01"; note "Groceries" "2024-03-15";
   note "Groceries" "2024-02-10"].

Definition groceries_group : dup_info :=
  mk_dup_info (note "Groceries" "2024-03-15")
    [note "Groceries" "2024-02-10"; note "Groceries" "2024-01-01"].

(** [q] is strictly older than [x]. *)
Definition older_than (x : page) (q : page) : Prop :=
  pystr_lt (created_time q) (created_time x) = true.

(** [q] is as old as [x], or older. *)
Definition not_newer_than (x : page) (q : page) : Prop :=
  pystr_le (created_time q) (created_time x) = true.

(** C1, as the specification states it: [remove] is the records of the
    title in input order, with [keep] taken out. *)
Definition remove_in_input_order (pages : list page) : Prop :=
  forall k g,
    In (k, g) (find_duplicates pages) ->
    exists pre post,
      titled k pages = pre ++ keep g :: post /\ remove g = pre ++ post.

(** ** The Grouper: which records are grouped *)

Definition grouped_records (pages : list page) : list page :=
  flat_map (fun kg => members (snd kg)) (find_duplicates pages).

(** C2, as the specification states it: the groups hold every record
    whose title is not empty. *)
Definition partitions_nonempty_keys (pages : list page) : Prop :=
  Permutation (grouped_records pages)
    (filter (fun p => nonempty (title p)) pages).

(** ** The Grouper: the order of the groups *)

(** The position in the input of the first record that carries title
    [k] (the length of the input when there is none). *)
Fixpoint first_pos (k : pystr) (pages : list page) : nat :=
  match pages with
  | [] => 0
  | p :: rest => if pystr_eqb (title p) k then 0 else S (first_pos k rest)
  end.

(** Seven records: two titles carried twice, one carried once, two
    records without title. *)
Definition five_notes : list page :=
  [note "b" "1"; note "" "1"; note "a" "1"; note "c" "1"; note "a" "2";
   note "" "2"; note "b" "2"].

(** ** The archival loop *)

(** The records to archive, each with the title of its group, in the
    order the two loops visit them. *)
Definition schedule (duplicates : list (pystr * dup_info))
  : list (pystr * page) :=
  flat_map (fun kg => map (pair (fst kg)) (remove (snd kg))) duplicates.

(** The report line of the record archived by the [n]-th request. *)
Definition line_of (reply : nat -> json -> result json) (n : nat)
           (tp : pystr * page) : report_line :=
  match reply n (id (snd tp)) with
  | Ok _ => Archived (fst tp)
  | Raise e => ArchiveFailed (fst tp) e
  end.

Fixpoint lines_of (reply : nat -> json -> result json) (n : nat)
         (sched : list (pystr * page)) : list report_line :=
  match sched with
  | [] => []
  | tp :: rest => line_of reply n tp :: lines_of reply (S n) rest
  end.

Definition attempt (tp : pystr * page) : event := Archive (id (snd tp)).

(** ** Preview mode *)

Definition is_query (e : event) : Prop :=
  match e with
  | Query _ => True
  | Archive _ => False
  end.

(** ** Pagination *)

(** One reply of the store, as the loop reads it. *)
Definition page_items (res : json) : list json :=
  match read_page res with Ok (items, _, _) => items | Raise _ => [] end.

Definition has_more (res : json) : bool :=
  match read_page res with
  | Ok (_, more, _) => truthy more
  | Raise _ => false
  end.

Definition next_cursor (res : json) : json :=
  match read_page res with Ok (_, _, c) => c | Raise _ => JNull end.

Definition readable (res : json) : bool :=
  match read_page res with Ok _ => true | Raise _ => false end.

(** A reply after which the loop goes on. *)
Definition more_page (res : json) : bool := readable res && has_more res.

(** A reply after which the loop stops. *)
Definition last_page (res : json) : bool :=
  readable res && negb (has_more res).

(** The queries the loop sends for the replies [pages], the first with
    [start_cursor], each later one with the cursor of the reply before
    it. *)
Fixpoint cursor_queries (start_cursor : json) (pages : list json)
  : list event :=
  match pages with
  | [] => []
  | res :: rest =>
      Query (payload_cursor start_cursor)
      :: cursor_queries (next_cursor res) rest
  end.

(** The cursor in hand after the replies [pages]. *)
Fixpoint last_cursor (start_cursor : json) (pages : list json) : json :=
  match pages with
  | [] => start_cursor
  | res :: rest => last_cursor (next_cursor res) rest
  end.

(** C8, the cursor part as the specification states it: when the first
    reply has more pages and carries a cursor, the second query carries
    that cursor. *)
Definition passes_cursor_on (first : json) (replies : list (result json))
  : Prop :=
  more_page first = true ->
  next_cursor first <> JNull ->
  nth_error (fst (get_all_pages (Ok first :: replies))) 1
  = Some (Query (Some (next_cursor first))).

Definition reply_page (items : list json) (more : bool) (cursor : json)
  : json :=
  JDict [(key_results, JList items); (key_has_more, JBool more);
         (key_next_cursor, cursor)].

(** ** The Projector *)

(** [v[k]] when [v] is a dict that has the key. *)
Definition field (v : json) (k : pystr) : option json :=
  match v with
  | JDict d => lookup k d
  | _ => None
  end.

Definition or_default (o : option json) (default : json) : json :=
  match o with Some v => v | None => default end.

(** A rich-text segment the Projector can read: a dict whose
    [plain_text], when it has one, is a string. *)
Definition segment_ok (t : json) : bool :=
  match t with
  | JDict d =>
      match lookup key_plain_text d with
      | None | Some (JStr _) => true
      | Some _ => false
      end
  | _ => false
  end.

(** A value of [title] or [rich_text] the Projector can read: falsy, or
    a list of readable segments. *)
Definition text_ok (v : json) : bool :=
  negb (truthy v)
  || match v with JList l => forallb segment_ok l | _ => false end.

(** A property the Projector can read. *)
Definition property_ok (prop : json) (k : pystr) : bool :=
  match prop with
  | JDict d => text_ok (or_default (lookup k d) JNull)
  | _ => false
  end.

(** The raw records the Projector can read: a dict with an [id], whose
    [properties], title property and body property are dicts when they
    are there, with readable [title] and [rich_text]. *)
Definition projectable (page : json) : bool :=
  match page with
  | JDict d =>
      match lookup key_id d with
      | None => false
      | Some _ =>
          match or_default (lookup key_properties d) (JDict []) with
          | JDict props =>
              property_ok (or_default (lookup key_name props) (JDict []))
                key_title
              && property_ok (or_default (lookup key_body props) (JDict []))
                   key_rich_text
          | _ => false
          end
      end
  | _ => false
  end.

(** The raw value of [properties[prop][k]], when all three are there. *)
Definition property_value (page : json) (prop k : pystr) : option json :=
  match field page key_properties with
  | Some props =>
      match field props prop with
      | Some p => field p k
      | None => None
      end
  | None => None
  end.

Definition absent_or_falsy (o : option json) : bool :=
  match o with
  | None => true
  | Some v => negb (truthy v)
  end.

(** C3, as the specification states it: the Projector returns a record
    for every raw record. *)
Definition projector_total : Prop :=
  forall raw : json, exists info, extract_page_info raw = Ok info.

Definition sample_raw : json :=
  JDict
    [(key_id, JStr (u "p1"));
     (key_properties,
      JDict
        [(key_name,
          JDict
            [(key_title,
              JList [JDict [(key_plain_text, JStr (u " Gro"))];
                     JDict [(key_plain_text, JStr (u "ceries "))]])])]);
     (key_url, JStr (u "https://notion.so/p1"))].

(** ** A record without [created_time] *)

(** A raw page with an id, a one-segment title and a [created_time]. *)
Definition raw_note (i t c : string) : json :=
  JDict [(key_id, JStr (u i));
         (key_properties,
          JDict [(key_name,
                  JDict [(key_title,
                          JList [JDict [(key_plain_text, JStr (u t))]])])]);
         (key_created_time, JStr (u c))].

Definition sample_page : page :=
  mk_page_info (JStr (u "p1")) (u "Groceries") [] []
    (JStr (u "https://notion.so/p1")).

(** ** Requests *)

Definition is_archive (e : event) : Prop :=
  match e with
  | Query _ => False
  | Archive _ => True
  end.

(** The ids of the records a schedule archives. *)
Definition archived_ids (duplicates : list (pystr * dup_info)) : list json :=
  map (fun tp => id (snd tp)) (schedule duplicates).

(** ** The text of a property *)

(** A string with no whitespace at either end. *)
Definition trimmed (s : pystr) : Prop :=
  (forall c rest, s = c :: rest -> is_space c = false)
  /\ (forall front c, s = front ++ [c] -> is_space c = false).

(** The [plain_text] of a readable segment, [""] when it has none. *)
Definition segment_text (t : json) : pystr :=
  match t with
  | JDict d =>
      match lookup key_plain_text d with
      | Some (JStr s) => s
      | _ => []
      end
  | _ => []
  end.

(** The texts of the segments of a readable [title] or [rich_text], one
    after the other. *)
Definition segments_text (v : json) : pystr :=
  match v with
  | JList l => flat_map segment_text l
  | _ => []
  end.

(** The stripped text of [properties[prop][k]]. *)
Definition property_string (page : json) (prop k : pystr) : pystr :=
  strip (segments_text (or_default (property_value page prop k) JNull)).

(** The projection of a readable raw record, field by field. *)
Definition projection (page : json) : page_info json :=
  mk_page_info
    (or_default (field page key_id) JNull)
    (property_string page key_name key_title)
    (property_string page key_body key_rich_text)
    (or_default (field page key_created_time) (JStr []))
    (or_default (field page key_url) (JStr [])).

(** ** After the archival *)

(** The records left when every record of every [remove] list has been
    archived: those whose title is empty or carried once, and the [keep]
    of every group. *)
Definition survivors (pages : list page) : list page :=
  filter (fun p => negb (nonempty (title p) && shared pages (title p))) pages
  ++ map (fun kg => keep (snd kg)) (find_duplicates pages).

(** The concatenated [plain_text] of the title segments of a raw
    record, before [strip]. *)
Definition raw_title (page : json) : pystr :=
  segments_text (or_default (property_value page key_name key_title) JNull).

(** The concatenated [plain_text] of the body segments of a raw record,
    before [strip]. *)
Definition raw_content (page : json) : pystr :=
  segments_text
    (or_default (property_value page key_body key_rich_text) JNull).

(** A string made of whitespace only. *)
Definition blank (s : pystr) : Prop := forallb is_space s = true.

(** * Properties *)

(** ** The scenario of the specification *)

Example groceries :
  find_duplicates
    [note "Groceries" "2024-01-01"; note "Groceries" "2024-03-15";
     note "Groceries" "2024-02-10"]
  = [(u "Groceries",
      mk_dup_info (note "Groceries" "2024-03-15")
        [note "Groceries" "2024-02-10"; note "Groceries" "2024-01-01"])].
Proof. reflexivity. Qed.

(** ** Facts about the string order *)

Lemma pystr_eqb_spec (a b : pystr) : reflect (a = b) (pystr_eqb a b).
Proof.
  revert b; induction a as [|x a IH]; intros [|y b]; simpl;
    try (constructor; congruence).
  destruct (N.eqb_spec x y) as [->|Hxy]; simpl.
  - destruct (IH b) as [->|Hab]; constructor; congruence.
  - constructor; congruence.
Qed.

Lemma pystr_eqb_refl (a : pystr) : pystr_eqb a a = true.
Proof. destruct (pystr_eqb_spec a a); congruence. Qed.

Lemma pystr_eqb_sym (a b : pystr) : pystr_eqb a b = pystr_eqb b a.
Proof.
  destruct (pystr_eqb_spec a b), (pystr_eqb_spec b a); congruence.
Qed.

Lemma pystr_lt_irrefl (a : pystr) : pystr_lt a a = false.
Proof.
  induction a as [|x a IH]; simpl; [reflexivity|].
  rewrite N.ltb_irrefl, N.eqb_refl. exact IH.
Qed.

Lemma pystr_lt_trans (a b c : pystr) :
  pystr_lt a b = true -> pystr_lt b c = true -> pystr_lt a c = true.
Proof.
  revert b c; induction a as [|x a IH]; intros [|y b] [|z c]; simpl;
    try congruence.
  destruct (N.ltb_spec x y), (N.ltb_spec y z), (N.ltb_spec x z);
    try reflexivity; try lia;
    destruct (N.eqb_spec x y), (N.eqb_spec y z), (N.eqb_spec x z);
    try congruence; try lia.
  apply IH.
Qed.

(** Two strings neither of which is below the other are equal. *)
Lemma pystr_lt_connex (a b : pystr) :
  pystr_lt a b = false -> pystr_lt b a = false -> a = b.
Proof.
  revert b; induction a as [|x a IH]; intros [|y b]; simpl;
    try congruence.
  destruct (N.ltb_spec x y), (N.ltb_spec y x); try congruence; try lia.
  assert (x = y) by lia; subst y. rewrite N.eqb_refl.
  intros H1 H2. f_equal. now apply IH.
Qed.

Lemma pystr_lt_asym (a b : pystr) :
  pystr_lt a b = true -> pystr_lt b a = false.
Proof.
  intros H. destruct (pystr_lt b a) eqn:E; [|reflexivity].
  rewrite <- (pystr_lt_irrefl a). symmetry. eapply pystr_lt_trans; eauto.
Qed.

Lemma pystr_lt_le (a b : pystr) :
  pystr_lt a b = true -> pystr_le a b = true.
Proof. intros H. unfold pystr_le. now rewrite (pystr_lt_asym _ _ H). Qed.

Lemma pystr_le_refl (a : pystr) : pystr_le a a = true.
Proof. unfold pystr_le. now rewrite pystr_lt_irrefl. Qed.

Lemma pystr_le_trans (a b c : pystr) :
  pystr_le a b = true -> pystr_le b c = true -> pystr_le a c = true.
Proof.
  unfold pystr_le. intros Hab Hbc.
  apply negb_true_iff in Hab, Hbc. apply negb_true_iff.
  destruct (pystr_lt c a) eqn:Hca; [|reflexivity].
  destruct (pystr_lt a b) eqn:Hab'.
  - rewrite <- Hbc. symmetry. eapply pystr_lt_trans; eauto.
  - assert (a = b) by (now apply pystr_lt_connex). subst b. congruence.
Qed.

(** The empty string is below every other string. *)
Lemma pystr_lt_empty (a : pystr) : pystr_lt [] a = nonempty a.
Proof. now destruct a. Qed.

(** ** Facts about [sorted] *)

Lemma insert_newest_first_perm (x : page) (l : list page) :
  Permutation (insert_newest_first x l) (x :: l).
Proof.
  induction l as [|y l IH]; simpl; [reflexivity|].
  destruct (pystr_lt _ _); [|reflexivity].
  rewrite IH. apply perm_swap.
Qed.

Lemma sorted_newest_first_perm (l : list page) :
  Permutation (sorted_newest_first l) l.
Proof.
  induction l as [|x l IH]; simpl; [reflexivity|].
  rewrite insert_newest_first_perm. now apply perm_skip.
Qed.

Lemma sorted_newest_first_length (l : list page) :
  length (sorted_newest_first l) = length l.
Proof. apply Permutation_length, sorted_newest_first_perm. Qed.

Lemma insert_newest_first_sorted (x : page) (l : list page) :
  StronglySorted newer_or_same l ->
  StronglySorted newer_or_same (insert_newest_first x l).
Proof.
  induction 1 as [|y l Hl IH Hy]; simpl.
  - repeat constructor.
  - destruct (pystr_lt (created_time x) (created_time y)) eqn:E.
    + constructor; [exact IH|].
      rewrite insert_newest_first_perm. constructor; [|exact Hy].
      now apply pystr_lt_le.
    + constructor; [now constructor|].
      assert (Hxy : newer_or_same x y)
        by (unfold newer_or_same, pystr_le; now rewrite E).
      constructor; [exact Hxy|].
      eapply Forall_impl; [|exact Hy].
      intros z Hz. unfold newer_or_same in *.
      eapply pystr_le_trans; eauto.
Qed.

Lemma sorted_newest_first_sorted (l : list page) :
  StronglySorted newer_or_same (sorted_newest_first l).
Proof.
  induction l as [|x l IH]; simpl; [constructor|].
  now apply insert_newest_first_sorted.
Qed.

Lemma insert_newest_first_stable (t : pystr) (x : page) (l : list page) :
  created_at t (insert_newest_first x l) = created_at t (x :: l).
Proof.
  unfold created_at.
  induction l as [|y l IH]; [reflexivity|].
  cbn [insert_newest_first].
  destruct (pystr_lt (created_time x) (created_time y)) eqn:E;
    [|reflexivity].
  cbn [filter] in *. rewrite IH.
  destruct (pystr_eqb_spec (created_time x) t) as [Hx|Hx];
    destruct (pystr_eqb_spec (created_time y) t) as [Hy|Hy];
    try reflexivity.
  rewrite Hx, Hy, pystr_lt_irrefl in E. discriminate.
Qed.

Lemma sorted_newest_first_stable (t : pystr) (l : list page) :
  created_at t (sorted_newest_first l) = created_at t l.
Proof.
  induction l as [|x l IH]; [reflexivity|].
  cbn [sorted_newest_first fold_right].
  rewrite insert_newest_first_stable.
  unfold created_at in *. cbn [filter].
  fold (sorted_newest_first l). now rewrite IH.
Qed.

Lemma sorted_newest_first_cons (x : page) (l : list page) :
  sorted_newest_first (x :: l)
  = insert_newest_first x (sorted_newest_first l).
Proof. reflexivity. Qed.

(** The head of the sorted list is the first of the newest records. *)
Lemma sorted_newest_first_head (pre post : list page) (x : page) :
  Forall (fun q => pystr_lt (created_time q) (created_time x) = true) pre ->
  Forall (fun q => pystr_le (created_time q) (created_time x) = true) post ->
  sorted_newest_first (pre ++ x :: post)
  = x :: sorted_newest_first (pre ++ post).
Proof.
  intros Hpre Hpost. induction Hpre as [|a pre Ha Hpre IH].
  - cbn [app]. rewrite sorted_newest_first_cons.
    assert (Hs : Forall (fun q => pystr_le (created_time q) (created_time x) = true)
                   (sorted_newest_first post)).
    { rewrite Forall_forall in *. intros q Hq. apply Hpost.
      eapply Permutation_in; [apply sorted_newest_first_perm|exact Hq]. }
    destruct (sorted_newest_first post) as [|y s]; [reflexivity|].
    cbn [insert_newest_first]. inversion Hs as [|? ? Hy _]; subst.
    unfold pystr_le in Hy. apply negb_true_iff in Hy. now rewrite Hy.
  - cbn [app]. rewrite !sorted_newest_first_cons, IH.
    cbn [insert_newest_first]. now rewrite Ha.
Qed.

(** Every non-empty list splits at the first of its newest records. *)
Lemma first_newest_split (l : list page) :
  l <> [] ->
  exists pre x post,
    l = pre ++ x :: post
    /\ Forall (fun q => pystr_lt (created_time q) (created_time x) = true) pre
    /\ Forall (fun q => pystr_le (created_time q) (created_time x) = true) post.
Proof.
  induction l as [|a l IH]; [congruence|]. intros _.
  destruct l as [|b l'].
  - exists [], a, []. repeat split; constructor.
  - destruct IH as (pre & x & post & Hl & Hpre & Hpost); [congruence|].
    destruct (pystr_lt (created_time a) (created_time x)) eqn:E.
    + exists (a :: pre), x, post. rewrite Hl.
      split; [reflexivity|]. split; [now constructor|exact Hpost].
    + exists [], a, (b :: l'). split; [reflexivity|]. split; [constructor|].
      assert (Hxa : pystr_le (created_time x) (created_time a) = true)
        by (unfold pystr_le; now rewrite E).
      rewrite Hl. apply Forall_app. split.
      * eapply Forall_impl; [|exact Hpre]. intros q Hq.
        eapply pystr_le_trans; [apply pystr_lt_le; exact Hq|exact Hxa].
      * constructor; [exact Hxa|].
        eapply Forall_impl; [|exact Hpost]. intros q Hq.
        eapply pystr_le_trans; [exact Hq|exact Hxa].
Qed.

(** ** Facts about [by_title] *)

Lemma first_seen_In (k : pystr) (ks : list pystr) :
  In k (first_seen ks) <-> In k ks.
Proof.
  induction ks as [|a ks IH]; simpl; [tauto|].
  rewrite filter_In, IH.
  destruct (pystr_eqb_spec k a) as [->|Hka]; simpl; intuition congruence.
Qed.

Lemma first_seen_NoDup (ks : list pystr) : NoDup (first_seen ks).
Proof.
  induction ks as [|a ks IH]; simpl; constructor.
  - rewrite filter_In, pystr_eqb_refl. simpl. intros [_ H]. discriminate.
  - now apply NoDup_filter.
Qed.

Lemma existsb_pystr_In (k : pystr) (ks : list pystr) :
  existsb (pystr_eqb k) ks = true <-> In k ks.
Proof.
  rewrite existsb_exists. split.
  - intros (x & Hx & E). destruct (pystr_eqb_spec k x); congruence.
  - intros H. exists k. split; [exact H|apply pystr_eqb_refl].
Qed.

Lemma first_seen_snoc (k : pystr) (ks : list pystr) :
  first_seen (ks ++ [k])
  = first_seen ks ++ (if existsb (pystr_eqb k) ks then [] else [k]).
Proof.
  induction ks as [|a ks IH]; [reflexivity|].
  cbn [app first_seen existsb]. rewrite IH, filter_app.
  cbn [app]. do 2 f_equal.
  destruct (pystr_eqb k a) eqn:E, (existsb (pystr_eqb k) ks);
    cbn [orb filter]; rewrite ?E; reflexivity.
Qed.

Lemma titled_snoc_in (T : Type) (k : pystr) (pages : list (page_info T))
      (p : page_info T) :
  titled_in k (pages ++ [p])
  = titled_in k pages ++ (if pystr_eqb (title p) k then [p] else []).
Proof. unfold titled_in. rewrite filter_app. reflexivity. Qed.

Lemma titled_nil_iff_in (T : Type) (k : pystr) (pages : list (page_info T)) :
  titled_in k pages = [] <-> ~ In k (map title pages).
Proof.
  unfold titled_in. induction pages as [|p pages IH]; simpl; [tauto|].
  destruct (pystr_eqb_spec (title p) k) as [E|E].
  - split; [discriminate|]. intros H. exfalso. apply H. now left.
  - rewrite IH. tauto.
Qed.

Lemma keyed_In_in (T : Type) (k : pystr) (pages : list (page_info T)) :
  In k (keyed_in pages) <-> nonempty k = true /\ In k (map title pages).
Proof.
  unfold keyed_in. rewrite !in_map_iff. split.
  - intros (p & <- & Hp). apply filter_In in Hp as [Hp Hne]. eauto.
  - intros (Hne & p & <- & Hp). exists p. rewrite filter_In. auto.
Qed.

Lemma keyed_snoc_in (T : Type) (pages : list (page_info T))
      (p : page_info T) :
  keyed_in (pages ++ [p])
  = keyed_in pages ++ (if nonempty (title p) then [title p] else []).
Proof.
  unfold keyed_in. rewrite filter_app, map_app. cbn [filter].
  now destruct (nonempty (title p)).
Qed.

Lemma append_to_map (T : Type) (k0 : pystr) (p : page_info T)
      (G : pystr -> list (page_info T)) (ks : list pystr) :
  NoDup ks ->
  append_to k0 p (map (fun k => (k, G k)) ks)
  = map (fun k => (k, G k ++ if pystr_eqb k0 k then [p] else [])) ks
    ++ (if existsb (pystr_eqb k0) ks then [] else [(k0, [p])]).
Proof.
  induction 1 as [|k ks Hk Hks IH]; [reflexivity|].
  cbn [map append_to existsb app]. rewrite (pystr_eqb_sym k k0).
  destruct (pystr_eqb_spec k0 k) as [->|Hne]; cbn [orb].
  - rewrite app_nil_r. f_equal. apply map_ext_in. intros k' Hk'.
    destruct (pystr_eqb_spec k k') as [->|_]; [contradiction|].
    now rewrite app_nil_r.
  - rewrite IH, app_nil_r. reflexivity.
Qed.

Lemma by_title_snoc (T : Type) (pages : list (page_info T))
      (p : page_info T) :
  by_title (pages ++ [p])
  = if nonempty (title p) then append_to (title p) p (by_title pages)
    else by_title pages.
Proof. unfold by_title. now rewrite fold_left_app. Qed.

(** The first loop in closed form: one entry per key, in the order the
    keys are first met, holding the records of that key in input order. *)
Lemma by_title_eq_in (T : Type) (pages : list (page_info T)) :
  by_title pages
  = map (fun k => (k, titled_in k pages)) (first_seen (keyed_in pages)).
Proof.
  induction pages as [|p pages IH] using rev_ind; [reflexivity|].
  rewrite by_title_snoc, IH, keyed_snoc_in. clear IH.
  destruct (nonempty (title p)) eqn:Hne.
  - rewrite first_seen_snoc.
    rewrite append_to_map by apply first_seen_NoDup.
    rewrite map_app. f_equal.
    + apply map_ext. intros k. now rewrite titled_snoc_in.
    + destruct (existsb (pystr_eqb (title p)) (first_seen (keyed_in pages)))
        eqn:Ex.
      * apply (proj1 (existsb_pystr_In _ _)) in Ex.
        apply (proj1 (first_seen_In _ _)) in Ex.
        apply (proj2 (existsb_pystr_In _ _)) in Ex. now rewrite Ex.
      * assert (Hnot : ~ In (title p) (keyed_in pages)).
        { intros H. apply (proj2 (first_seen_In _ _)) in H.
          apply (proj2 (existsb_pystr_In _ _)) in H. congruence. }
        destruct (existsb (pystr_eqb (title p)) (keyed_in pages)) eqn:Ex'.
        { apply (proj1 (existsb_pystr_In _ _)) in Ex'. contradiction. }
        cbn [map]. rewrite titled_snoc_in, pystr_eqb_refl.
        replace (titled_in (title p) pages) with (@nil (page_info T));
          [reflexivity|].
        symmetry. apply titled_nil_iff_in. intros H. apply Hnot.
        apply keyed_In_in. auto.
  - rewrite app_nil_r. apply map_ext_in. intros k Hk.
    rewrite titled_snoc_in.
    destruct (pystr_eqb_spec (title p) k) as [E|_]; [|now rewrite app_nil_r].
    apply (proj1 (first_seen_In _ _)) in Hk.
    apply (proj1 (keyed_In_in _ _)) in Hk as [Hk _]. congruence.
Qed.

Lemma titled_snoc (k : pystr) (pages : list page) (p : page) :
  titled k (pages ++ [p])
  = titled k pages ++ (if pystr_eqb (title p) k then [p] else []).
Proof. exact (titled_snoc_in k pages p). Qed.

Lemma titled_nil_iff (k : pystr) (pages : list page) :
  titled k pages = [] <-> ~ In k (map title pages).
Proof. exact (titled_nil_iff_in k pages). Qed.

Lemma keyed_In (k : pystr) (pages : list page) :
  In k (keyed pages) <-> nonempty k = true /\ In k (map title pages).
Proof. exact (keyed_In_in k pages). Qed.

Lemma keyed_snoc (pages : list page) (p : page) :
  keyed (pages ++ [p])
  = keyed pages ++ (if nonempty (title p) then [title p] else []).
Proof. exact (keyed_snoc_in pages p). Qed.

(** The first loop in closed form, for records with a string
    [created_time]. *)
Lemma by_title_eq (pages : list page) :
  by_title pages
  = map (fun k => (k, titled k pages)) (first_seen (keyed pages)).
Proof. exact (by_title_eq_in pages). Qed.

(** ** Facts about [find_duplicates] *)

Lemma duplicates_of_small (k : pystr) (l : list page) :
  (1 <? length l) = false -> duplicates_of (k, l) = [].
Proof.
  destruct l as [|a [|b l]]; try reflexivity.
  simpl. discriminate.
Qed.

Lemma duplicates_of_big (k : pystr) (l : list page) :
  (1 <? length l) = true ->
  exists x r,
    sorted_newest_first l = x :: r
    /\ duplicates_of (k, l) = [(k, mk_dup_info x r)].
Proof.
  intros Hlen. destruct l as [|a [|b l]]; try discriminate.
  cbn [duplicates_of].
  destruct (sorted_newest_first (a :: b :: l)) as [|x r] eqn:E.
  - apply (f_equal (@length page)) in E.
    rewrite sorted_newest_first_length in E. discriminate.
  - exists x, r. split; reflexivity.
Qed.

Lemma find_duplicates_eq (pages : list page) :
  find_duplicates pages
  = flat_map (fun k => duplicates_of (k, titled k pages))
      (first_seen (keyed pages)).
Proof.
  unfold find_duplicates. rewrite by_title_eq.
  induction (first_seen (keyed pages)) as [|k ks IH]; [reflexivity|].
  cbn [map flat_map]. now rewrite IH.
Qed.

(** The groups of the output, one by one. *)
Lemma find_duplicates_In (pages : list page) (k : pystr) (g : dup_info) :
  In (k, g) (find_duplicates pages)
  <-> nonempty k = true
      /\ 2 <= length (titled k pages)
      /\ sorted_newest_first (titled k pages) = keep g :: remove g.
Proof.
  rewrite find_duplicates_eq, in_flat_map. split.
  - intros (k' & Hk' & Hin).
    destruct (1 <? length (titled k' pages)) eqn:Hlen.
    + destruct (duplicates_of_big k' _ Hlen) as (x & r & Hs & Hd).
      rewrite Hd in Hin. destruct Hin as [Hin|[]].
      injection Hin as -> <-. cbn [keep remove].
      apply (proj1 (first_seen_In _ _)) in Hk'.
      apply (proj1 (keyed_In _ _)) in Hk' as [Hne _].
      apply Nat.ltb_lt in Hlen. auto.
    + rewrite (duplicates_of_small k' _ Hlen) in Hin. destruct Hin.
  - intros (Hne & Hlen & Hs). exists k. split.
    + apply first_seen_In, keyed_In. split; [exact Hne|].
      destruct (in_dec (list_eq_dec N.eq_dec) k (map title pages))
        as [H|H]; [exact H|].
      apply titled_nil_iff in H. rewrite H in Hlen. simpl in Hlen. lia.
    + assert (Hlt : (1 <? length (titled k pages)) = true)
        by (apply Nat.ltb_lt; lia).
      destruct (duplicates_of_big k _ Hlt) as (x & r & Hs' & Hd).
      rewrite Hd. left. rewrite Hs in Hs'. injection Hs' as <- <-.
      now destruct g.
Qed.

(** The keys of the output: the shared keys, in first-seen order. *)
Lemma find_duplicates_keys (pages : list page) :
  map fst (find_duplicates pages)
  = filter (shared pages) (first_seen (keyed pages)).
Proof.
  rewrite find_duplicates_eq.
  induction (first_seen (keyed pages)) as [|k ks IH]; [reflexivity|].
  cbn [flat_map filter]. rewrite map_app, IH. unfold shared at 2.
  destruct (1 <? length (titled k pages)) eqn:Hlen.
  - destruct (duplicates_of_big k _ Hlen) as (x & r & _ & ->). reflexivity.
  - now rewrite (duplicates_of_small k _ Hlen).
Qed.

Lemma find_duplicates_keys_NoDup (pages : list page) :
  NoDup (map fst (find_duplicates pages)).
Proof.
  rewrite find_duplicates_keys. apply NoDup_filter, first_seen_NoDup.
Qed.

(** A group is determined by its key. *)
Lemma find_duplicates_functional (pages : list page) (k : pystr)
      (g g' : dup_info) :
  In (k, g) (find_duplicates pages) ->
  In (k, g') (find_duplicates pages) ->
  g = g'.
Proof.
  intros H H'. apply find_duplicates_In in H as (_ & _ & H).
  apply find_duplicates_In in H' as (_ & _ & H').
  rewrite H in H'. injection H' as E1 E2.
  destruct g, g'; simpl in *; congruence.
Qed.

(** A group split at its [keep]: [keep] is the first of the newest
    records of the title, and [remove] is the sorted rest. *)
Lemma find_duplicates_split (pages : list page) (k : pystr) (g : dup_info) :
  In (k, g) (find_duplicates pages) ->
  exists pre post,
    titled k pages = pre ++ keep g :: post
    /\ Forall (fun q => pystr_lt (created_time q) (created_time (keep g)) = true) pre
    /\ Forall (fun q => pystr_le (created_time q) (created_time (keep g)) = true) post
    /\ remove g = sorted_newest_first (pre ++ post).
Proof.
  intros H. apply find_duplicates_In in H as (_ & Hlen & Hs).
  destruct (first_newest_split (l := titled k pages))
    as (pre & x & post & Hl & Hpre & Hpost).
  { intros E. rewrite E in Hlen. simpl in Hlen. lia. }
  rewrite Hl, (sorted_newest_first_head _ Hpre Hpost) in Hs.
  injection Hs as <- <-. exists pre, post. auto.
Qed.

(** ** The Grouper: keep and remove *)

(** C1 (counterexample): on the three "Groceries" records of the
    specification's scenario the script returns remove = [2024-02-10;
    2024-01-01], newest first, which is not the input order
    [2024-01-01; 2024-02-10]. *)
Lemma remove_in_input_order_fails :
  find_duplicates groceries_input = [(u "Groceries", groceries_group)]
  /\ remove groceries_group
     <> [note "Groceries" "2024-01-01"; note "Groceries" "2024-02-10"]
  /\ ~ remove_in_input_order groceries_input.
Proof.
  split; [reflexivity|]. split; [discriminate|].
  intros H.
  destruct (H (u "Groceries") groceries_group) as (pre & post & Ht & Hr).
  { left; reflexivity. }
  destruct pre as [|a [|b [|c pre]]]; cbn in Ht, Hr.
  - discriminate.
  - inversion Ht; subst. discriminate.
  - discriminate.
  - inversion Ht as [[Ha Hb Hc Hnil]]. destruct pre; discriminate.
Qed.

(** C1 (amended): in every output group, [remove] holds the records of
    the title other than [keep], sorted by [created_time] newest first;
    records with the same [created_time] stay in input order. *)
Theorem remove_is_newest_first (pages : list page) (k : pystr)
        (g : dup_info) :
  In (k, g) (find_duplicates pages) ->
  exists pre post,
    titled k pages = pre ++ keep g :: post
    /\ Forall (older_than (keep g)) pre
    /\ Permutation (remove g) (pre ++ post)
    /\ StronglySorted newer_or_same (remove g)
    /\ forall t, created_at t (remove g) = created_at t (pre ++ post).
Proof.
  intros H.
  destruct (find_duplicates_split _ _ _ H)
    as (pre & post & Ht & Hpre & _ & Hr).
  exists pre, post. rewrite Hr. repeat split.
  - exact Ht.
  - exact Hpre.
  - apply sorted_newest_first_perm.
  - apply sorted_newest_first_sorted.
  - intros t. apply sorted_newest_first_stable.
Qed.

Lemma remove_is_newest_first_witness :
  In (u "Groceries", groceries_group) (find_duplicates groceries_input)
  /\ exists pre post,
       titled (u "Groceries") groceries_input
       = pre ++ keep groceries_group :: post
       /\ Forall (older_than (keep groceries_group)) pre
       /\ Permutation (remove groceries_group) (pre ++ post)
       /\ StronglySorted newer_or_same (remove groceries_group)
       /\ forall t,
            created_at t (remove groceries_group)
            = created_at t (pre ++ post).
Proof.
  split.
  - left; reflexivity.
  - apply (remove_is_newest_first groceries_input). left; reflexivity.
Defined.

(** C4: every non-empty title that two or more records carry has a group
    in the output, and only one; its [keep] is at least as new as every
    record in [remove], and it is the first record of the title, in input
    order, among those with the greatest [created_time]: the records
    before it are strictly older, those after it are not newer. *)
Theorem keep_is_first_newest (pages : list page) (k : pystr) :
  nonempty k = true ->
  2 <= length (titled k pages) ->
  exists g pre post,
    In (k, g) (find_duplicates pages)
    /\ (forall g', In (k, g') (find_duplicates pages) -> g' = g)
    /\ (forall r, In r (remove g) -> not_newer_than (keep g) r)
    /\ titled k pages = pre ++ keep g :: post
    /\ Forall (older_than (keep g)) pre
    /\ Forall (not_newer_than (keep g)) post.
Proof.
  intros Hne Hlen.
  destruct (sorted_newest_first (titled k pages)) as [|x r] eqn:Hs.
  { apply (f_equal (@length page)) in Hs.
    rewrite sorted_newest_first_length in Hs. simpl in Hs. lia. }
  assert (Hin : In (k, mk_dup_info x r) (find_duplicates pages))
    by (apply find_duplicates_In; auto).
  destruct (find_duplicates_split _ _ _ Hin)
    as (pre & post & Ht & Hpre & Hpost & Hr).
  exists (mk_dup_info x r), pre, post. repeat split; auto.
  - intros g' Hg'. eapply find_duplicates_functional; eauto.
  - intros q Hq. cbn [keep remove] in *.
    rewrite Hr in Hq.
    apply (Permutation_in _ (sorted_newest_first_perm _)) in Hq.
    apply in_app_or in Hq as [Hq|Hq].
    + rewrite Forall_forall in Hpre. apply pystr_lt_le, Hpre, Hq.
    + rewrite Forall_forall in Hpost. apply Hpost, Hq.
Qed.

Lemma keep_is_first_newest_witness :
  exists g pre post,
    In (u "Groceries", g) (find_duplicates groceries_input)
    /\ (forall g',
          In (u "Groceries", g') (find_duplicates groceries_input) -> g' = g)
    /\ (forall r, In r (remove g) -> not_newer_than (keep g) r)
    /\ titled (u "Groceries") groceries_input = pre ++ keep g :: post
    /\ Forall (older_than (keep g)) pre
    /\ Forall (not_newer_than (keep g)) post.
Proof.
  apply (keep_is_first_newest groceries_input (u "Groceries")).
  - reflexivity.
  - simpl. lia.
Defined.

(** C9: in every output group, [keep] together with [remove] is a
    rearrangement of the input records that carry the group's title, each
    as often as it occurs in the input, and [remove] has one record less
    than the title has. *)
Theorem group_is_its_records (pages : list page) (k : pystr)
        (g : dup_info) :
  In (k, g) (find_duplicates pages) ->
  Permutation (keep g :: remove g) (titled k pages)
  /\ length (remove g) = length (titled k pages) - 1.
Proof.
  intros H. apply find_duplicates_In in H as (_ & _ & Hs).
  assert (HP : Permutation (keep g :: remove g) (titled k pages))
    by (rewrite <- Hs; apply sorted_newest_first_perm).
  split; [exact HP|].
  apply Permutation_length in HP. simpl in HP. lia.
Qed.

Lemma group_is_its_records_witness :
  In (u "Groceries", groceries_group) (find_duplicates groceries_input)
  /\ Permutation (keep groceries_group :: remove groceries_group)
       (titled (u "Groceries") groceries_input)
  /\ length (remove groceries_group)
     = length (titled (u "Groceries") groceries_input) - 1.
Proof.
  split.
  - left; reflexivity.
  - apply (group_is_its_records groceries_input). left; reflexivity.
Defined.

(** ** The Grouper: which records are grouped *)

Lemma grouped_records_perm (pages : list page) (ks : list pystr) :
  Permutation
    (flat_map (fun kg => members (snd kg))
       (flat_map (fun k => duplicates_of (k, titled k pages)) ks))
    (flat_map (fun k => if shared pages k then titled k pages else []) ks).
Proof.
  induction ks as [|k ks IH]; [reflexivity|].
  cbn [flat_map]. rewrite flat_map_app. apply Permutation_app; [|exact IH].
  unfold shared. destruct (1 <? length (titled k pages)) eqn:Hlen.
  - destruct (duplicates_of_big k _ Hlen) as (x & r & Hs & ->).
    cbn [flat_map snd]. unfold members. cbn [keep remove].
    rewrite app_nil_r, <- Hs. apply sorted_newest_first_perm.
  - now rewrite (duplicates_of_small k _ Hlen).
Qed.

Lemma filter_split_key (k : pystr) (ks : list pystr) (f : pystr -> bool)
      (l : list page) :
  ~ In k ks ->
  Permutation
    (filter (fun p => (pystr_eqb (title p) k
                       || existsb (pystr_eqb (title p)) ks)
                      && f (title p)) l)
    ((if f k then titled k l else [])
     ++ filter (fun p => existsb (pystr_eqb (title p)) ks && f (title p)) l).
Proof.
  intros Hk. induction l as [|p l IH].
  - now destruct (f k).
  - cbn [filter]. unfold titled in *. cbn [filter].
    destruct (pystr_eqb_spec (title p) k) as [E|E]; cbn [orb].
    + assert (Hex : existsb (pystr_eqb (title p)) ks = false).
      { destruct (existsb (pystr_eqb (title p)) ks) eqn:Ex; [|reflexivity].
        apply (proj1 (existsb_pystr_In _ _)) in Ex. congruence. }
      rewrite Hex, E. cbn [andb].
      destruct (f k); [now apply perm_skip|exact IH].
    + destruct (existsb (pystr_eqb (title p)) ks && f (title p)).
      * now apply Permutation_cons_app.
      * exact IH.
Qed.

Lemma shared_records_perm (f : pystr -> bool) (l : list page)
      (ks : list pystr) :
  NoDup ks ->
  Permutation
    (flat_map (fun k => if f k then titled k l else []) ks)
    (filter (fun p => existsb (pystr_eqb (title p)) ks && f (title p)) l).
Proof.
  induction 1 as [|k ks Hk Hks IH].
  - cbn. induction l; [reflexivity|assumption].
  - cbn [flat_map existsb]. rewrite filter_split_key by exact Hk.
    now apply Permutation_app_head.
Qed.

(** C2 (counterexample): a record whose non-empty title no other record
    carries is in no group: the script drops the titles that occur once. *)
Lemma partitions_nonempty_keys_fails :
  let solo := note "Solo" "2024-01-01" in
  nonempty (title solo) = true
  /\ find_duplicates [solo] = []
  /\ ~ partitions_nonempty_keys [solo].
Proof.
  cbn. split; [reflexivity|]. split; [reflexivity|].
  unfold partitions_nonempty_keys. cbn. apply Permutation_nil_cons.
Qed.

(** C2 (amended): the groups hold exactly the records whose title is not
    empty and is carried by two or more records, each as often as the
    input has it; the groups have distinct keys and every record of a
    group carries the key of its group, so such a record is in one group
    only; a record with an empty title, or with a title no other record
    carries, is in no group. *)
Theorem groups_partition_shared_keys (pages : list page) :
  Permutation (grouped_records pages)
    (filter (fun p => nonempty (title p) && shared pages (title p)) pages)
  /\ NoDup (map fst (find_duplicates pages))
  /\ (forall k g p,
        In (k, g) (find_duplicates pages) -> In p (members g) ->
        title p = k /\ nonempty (title p) = true
        /\ shared pages (title p) = true).
Proof.
  split; [|split].
  - unfold grouped_records. rewrite find_duplicates_eq.
    rewrite grouped_records_perm.
    rewrite shared_records_perm by apply first_seen_NoDup.
    erewrite filter_ext_in; [reflexivity|].
    intros p Hp. cbv beta. f_equal.
    destruct (nonempty (title p)) eqn:Hne.
    + apply existsb_pystr_In, first_seen_In, keyed_In. split; [exact Hne|].
      now apply in_map.
    + destruct (existsb _ _) eqn:Ex; [|reflexivity].
      apply (proj1 (existsb_pystr_In _ _)) in Ex.
      apply (proj1 (first_seen_In _ _)) in Ex.
      apply (proj1 (keyed_In _ _)) in Ex as [Ex _]. congruence.
  - apply find_duplicates_keys_NoDup.
  - intros k g p Hin Hp.
    apply find_duplicates_In in Hin as (Hne & Hlen & Hs).
    unfold members in Hp. rewrite <- Hs in Hp.
    apply (Permutation_in _ (sorted_newest_first_perm _)) in Hp.
    unfold titled in Hp. apply filter_In in Hp as [_ Hp].
    destruct (pystr_eqb_spec (title p) k) as [->|]; [|discriminate].
    repeat split; [exact Hne|]. unfold shared. apply Nat.ltb_lt. lia.
Qed.

(** ** The Grouper: the order of the groups *)

Lemma first_pos_nth (k : pystr) (pages : list page) :
  In k (map title pages) ->
  exists p, nth_error pages (first_pos k pages) = Some p /\ title p = k.
Proof.
  induction pages as [|q pages IH]; [intros []|].
  intros Hin. cbn [first_pos].
  destruct (pystr_eqb_spec (title q) k) as [E|E].
  - exists q. split; [reflexivity|exact E].
  - destruct Hin as [Hin|Hin]; [contradiction|]. now apply IH.
Qed.

Lemma first_pos_first (k : pystr) (pages : list page) (i : nat) (q : page) :
  i < first_pos k pages -> nth_error pages i = Some q -> title q <> k.
Proof.
  revert i; induction pages as [|a pages IH]; intros i Hi Hq.
  - simpl in Hi. lia.
  - cbn [first_pos] in Hi.
    destruct (pystr_eqb_spec (title a) k) as [E|E]; [lia|].
    destruct i as [|i]; simpl in Hq.
    + now injection Hq as <-.
    + apply (IH i); [lia|exact Hq].
Qed.

Lemma StronglySorted_map_filter {A B} (R : B -> B -> Prop) (f : A -> B)
      (g : A -> bool) (l : list A) :
  StronglySorted R (map f l) -> StronglySorted R (map f (filter g l)).
Proof.
  induction l as [|a l IH]; [trivial|].
  cbn [map filter]. intros H. inversion H as [|? ? Hl Ha]; subst.
  destruct (g a); [|now apply IH].
  cbn [map]. constructor; [now apply IH|].
  rewrite Forall_forall in *. intros b Hb. apply Ha.
  apply in_map_iff in Hb as (x & <- & Hx).
  apply in_map, (proj1 (filter_In _ _ _) Hx).
Qed.

Lemma StronglySorted_map_S (l : list nat) :
  StronglySorted lt l -> StronglySorted lt (map S l).
Proof.
  induction 1 as [|a l Hl IH Ha]; cbn [map]; constructor; [exact IH|].
  rewrite Forall_forall in *. intros b Hb.
  apply in_map_iff in Hb as (x & <- & Hx). apply Ha in Hx. lia.
Qed.

Lemma keyed_cons (p : page) (pages : list page) :
  keyed (p :: pages)
  = if nonempty (title p) then title p :: keyed pages else keyed pages.
Proof. unfold keyed. cbn [filter]. now destruct (nonempty (title p)). Qed.

(** The keys of the first loop come in the order of their first
    positions in the input. *)
Lemma first_seen_keyed_sorted (pages : list page) :
  StronglySorted lt
    (map (fun k => first_pos k pages) (first_seen (keyed pages))).
Proof.
  induction pages as [|p pages IH]; [constructor|].
  rewrite keyed_cons. destruct (nonempty (title p)) eqn:Hne.
  - cbn [first_seen map first_pos]. rewrite pystr_eqb_refl.
    set (rest := filter _ (first_seen (keyed pages))).
    assert (E : map (fun k => if pystr_eqb (title p) k then 0
                              else S (first_pos k pages)) rest
                = map S (map (fun k => first_pos k pages) rest)).
    { rewrite map_map. apply map_ext_in. intros k Hk.
      apply filter_In in Hk as [_ Hk]. rewrite pystr_eqb_sym.
      now apply negb_true_iff in Hk as ->. }
    rewrite E. constructor.
    + apply StronglySorted_map_S. subst rest.
      now apply StronglySorted_map_filter.
    + rewrite Forall_forall. intros b Hb.
      apply in_map_iff in Hb as (x & <- & _). lia.
  - assert (E : map (fun k => first_pos k (p :: pages))
                  (first_seen (keyed pages))
                = map S (map (fun k => first_pos k pages)
                           (first_seen (keyed pages)))).
    { rewrite map_map. apply map_ext_in. intros k Hk. cbn [first_pos].
      apply (proj1 (first_seen_In _ _)) in Hk.
      apply (proj1 (keyed_In _ _)) in Hk as [Hk _].
      destruct (pystr_eqb_spec (title p) k) as [E|_]; [congruence|].
      reflexivity. }
    rewrite E. now apply StronglySorted_map_S.
Qed.

(** C5: the keys of the output are the non-empty titles that two or more
    records carry, each once, in the order in which they are first met in
    the input: every such title has its group; along the output, the
    position at which a group's key first occurs in the input strictly
    increases; that position holds a record with the key, and no earlier
    position does. *)
Theorem groups_in_first_seen_order (pages : list page) :
  map fst (find_duplicates pages)
  = filter (shared pages) (first_seen (keyed pages))
  /\ (forall k,
        In k (map fst (find_duplicates pages))
        <-> nonempty k = true /\ 2 <= length (titled k pages))
  /\ NoDup (map fst (find_duplicates pages))
  /\ StronglySorted lt
       (map (fun kg => first_pos (fst kg) pages) (find_duplicates pages))
  /\ (forall kg,
        In kg (find_duplicates pages) ->
        (exists p,
           nth_error pages (first_pos (fst kg) pages) = Some p
           /\ title p = fst kg)
        /\ (forall i q,
              i < first_pos (fst kg) pages ->
              nth_error pages i = Some q -> title q <> fst kg)).
Proof.
  split; [apply find_duplicates_keys|].
  split; [|split; [apply find_duplicates_keys_NoDup|split]].
  - intros k. split.
    + intros Hk. apply in_map_iff in Hk as ([k' g] & <- & Hin).
      apply find_duplicates_In in Hin as (Hne & Hlen & _). auto.
    + intros [Hne Hlen].
      destruct (sorted_newest_first (titled k pages)) as [|x r] eqn:Hs.
      { apply (f_equal (@length page)) in Hs.
        rewrite sorted_newest_first_length in Hs. simpl in Hs. lia. }
      apply in_map_iff. exists (k, mk_dup_info x r). split; [reflexivity|].
      apply find_duplicates_In. auto.
  - rewrite <- (map_map fst (fun k => first_pos k pages)).
    rewrite find_duplicates_keys.
    apply StronglySorted_map_filter, first_seen_keyed_sorted.
  - intros [k g] Hin. cbn [fst]. split.
    + apply first_pos_nth.
      apply (in_map fst) in Hin. rewrite find_duplicates_keys in Hin.
      apply filter_In in Hin as [Hin _]. cbn [fst] in Hin.
      apply (proj1 (first_seen_In _ _)) in Hin.
      now apply (proj1 (keyed_In _ _)) in Hin as [_ Hin].
    + intros i q. apply first_pos_first.
Qed.

Lemma groups_in_first_seen_order_witness :
  map fst (find_duplicates five_notes) = [u "b"; u "a"]
  /\ map (fun kg => first_pos (fst kg) five_notes)
       (find_duplicates five_notes)
     = [0; 2].
Proof.
  split; [|reflexivity].
  rewrite (proj1 (groups_in_first_seen_order five_notes)). reflexivity.
Defined.

Example two_groups_order :
  map fst
    (find_duplicates
       [note "b" "1"; note "" "1"; note "a" "1"; note "c" "1"; note "a" "2";
        note "" "2"; note "b" "2"])
  = [u "b"; u "a"].
Proof. reflexivity. Qed.

(** ** The archival loop *)

Lemma lines_of_app reply n (a b : list (pystr * page)) :
  lines_of reply n (a ++ b)
  = lines_of reply n a ++ lines_of reply (n + length a) b.
Proof.
  revert n; induction a as [|x a IH]; intros n; cbn [app lines_of length].
  - now rewrite Nat.add_0_r.
  - rewrite IH. do 3 f_equal. lia.
Qed.

Lemma lines_of_length reply n (sched : list (pystr * page)) :
  length (lines_of reply n sched) = length sched.
Proof.
  revert n; induction sched as [|x s IH]; intros n; simpl; [reflexivity|].
  now rewrite IH.
Qed.

Lemma lines_of_nth reply n (sched : list (pystr * page)) i tp :
  nth_error sched i = Some tp ->
  nth_error (lines_of reply n sched) i = Some (line_of reply (n + i) tp).
Proof.
  revert n i; induction sched as [|x s IH]; intros n [|i]; simpl;
    try discriminate.
  - intros [= ->]. now rewrite Nat.add_0_r.
  - intros H. rewrite (IH (S n) i H). do 2 f_equal. lia.
Qed.

Lemma archive_group_eq reply n t (l : list page) :
  archive_group reply n t l
  = (map attempt (map (pair t) l), lines_of reply n (map (pair t) l),
     n + length l).
Proof.
  revert n; induction l as [|p l IH]; intros n.
  - simpl. now rewrite Nat.add_0_r.
  - cbn [archive_group archive_one archive_page]. rewrite IH. cbn.
    do 2 f_equal. lia.
Qed.

Lemma archive_all_eq reply n (duplicates : list (pystr * dup_info)) :
  archive_all reply n duplicates
  = (map attempt (schedule duplicates),
     lines_of reply n (schedule duplicates),
     n + length (schedule duplicates)).
Proof.
  revert n; induction duplicates as [|[t g] d IH]; intros n.
  - simpl. now rewrite Nat.add_0_r.
  - cbn [archive_all]. rewrite archive_group_eq, IH.
    unfold schedule. cbn [flat_map fst snd].
    rewrite map_app, lines_of_app, length_app, !length_map.
    now rewrite Nat.add_assoc.
Qed.

(** C6: whatever the store answers to each archival request, the loop
    sends one request per record of every [remove] list, in order; the
    [i]-th record gets its own report line, a failure when the answer to
    its request is an exception, and the records after it are attempted
    all the same. *)
Theorem archival_failures_are_isolated
        (reply : nat -> json -> result json)
        (duplicates : list (pystr * dup_info)) :
  let '(sent, lines, _) := archive_all reply 0 duplicates in
  sent = map attempt (schedule duplicates)
  /\ length lines = length (schedule duplicates)
  /\ forall i tp,
       nth_error (schedule duplicates) i = Some tp ->
       nth_error sent i = Some (Archive (id (snd tp)))
       /\ nth_error lines i = Some (line_of reply i tp).
Proof.
  rewrite archive_all_eq. split; [reflexivity|]. split.
  - apply lines_of_length.
  - intros i tp H. split.
    + now rewrite nth_error_map, H.
    + now rewrite (lines_of_nth reply 0 _ _ H).
Qed.

(** The specification's scenario: group A's only removal fails, group
    B's succeeds. *)
Example one_failure_one_success :
  let a := note "A" "2024-01-01" in
  let b := note "B" "2024-01-01" in
  let reply n (_ : json) :=
    if Nat.eqb n 0 then Raise RequestException else Ok JNull in
  archive_all reply 0
    [(u "A", mk_dup_info (note "A" "2024-02-02") [a]);
     (u "B", mk_dup_info (note "B" "2024-02-02") [b])]
  = ([Archive (id a); Archive (id b)],
     [ArchiveFailed (u "A") RequestException; Archived (u "B")], 2).
Proof. reflexivity. Qed.

(** ** Preview mode *)

Lemma get_all_pages_loop_queries replies all_pages start_cursor :
  Forall is_query
    (fst (get_all_pages_loop replies all_pages start_cursor)).
Proof.
  revert all_pages start_cursor.
  induction replies as [|reply replies IH]; intros all_pages start_cursor.
  - repeat constructor.
  - cbn [get_all_pages_loop query_database]. destruct reply as [res|e];
      cbn [bind].
    + destruct (read_page res) as [[[items has_more] next_cursor]|e].
      * destruct (truthy has_more).
        -- specialize (IH (all_pages ++ items) next_cursor).
           destruct (get_all_pages_loop _ _ _) as [evs out].
           constructor; [exact I|exact IH].
        -- repeat constructor.
      * repeat constructor.
    + repeat constructor.
Qed.

(** The two ways a run ends: without any archival request, or, when
    [--dry-run] is off and the run is unattended or confirmed, after one
    archival request per scheduled record. *)
Lemma main_cases (lower : pystr -> pystr) (a : args) (r : remote)
      (stdin : option pystr) :
  let out := main lower a r stdin in
  let queries := fst (get_all_pages (query_replies r)) in
  (events out = queries /\ report out = []
   /\ ending out <> RetirementAttempted)
  \/ (dry_run a = false
      /\ (if auto a then Ok true else confirmed lower stdin) = Ok true
      /\ exists duplicates,
           events out = queries ++ map attempt (schedule duplicates)
           /\ report out
              = lines_of (archive_reply r) 0 (schedule duplicates)
           /\ ending out = RetirementAttempted).
Proof.
  unfold main.
  destruct (get_all_pages (query_replies r)) as [queries fetched].
  cbn [fst].
  destruct fetched as [[all_pages|e]|];
    try solve [left; cbn; split; [reflexivity|split; [reflexivity|discriminate]]].
  destruct (mapM extract_page_info all_pages) as [pages_info|e];
    try solve [left; cbn; split; [reflexivity|split; [reflexivity|discriminate]]].
  destruct (find_duplicates_info pages_info) as [[|kg dups]|];
    try solve [left; cbn; split; [reflexivity|split; [reflexivity|discriminate]]].
  destruct (print_summary (kg :: dups)) as [total|e];
    try solve [left; cbn; split; [reflexivity|split; [reflexivity|discriminate]]].
  destruct (dry_run a) eqn:Hdry;
    try solve [left; cbn; split; [reflexivity|split; [reflexivity|discriminate]]].
  destruct (if auto a then Ok true else confirmed lower stdin)
    as [[|]|e]; try solve [left; cbn; split; [reflexivity|split; [reflexivity|discriminate]]].
  right. split; [reflexivity|]. split; [reflexivity|].
  exists (kg :: dups). rewrite archive_all_eq. cbn. auto.
Qed.

(** C7: with [--dry-run] the run sends queries only, never an archival
    request, and reports no archival, for every store (so for every set
    of duplicates, the empty one included), with or without [--auto] and
    whatever the operator types. *)
Theorem dry_run_never_archives (lower : pystr -> pystr) (auto_flag : bool)
        (r : remote) (stdin : option pystr) :
  let out := main lower (mk_args true auto_flag) r stdin in
  Forall is_query (events out)
  /\ report out = []
  /\ ending out <> RetirementAttempted.
Proof.
  cbv zeta.
  destruct (main_cases lower (mk_args true auto_flag) r stdin)
    as [(He & Hr & Hend)|(Hdry & _)]; [|discriminate Hdry].
  rewrite He. repeat split; try assumption.
  apply get_all_pages_loop_queries.
Qed.

(** ** Pagination *)

(** What a readable reply holds. *)
Lemma read_page_parts (res : json) :
  readable res = true ->
  exists more,
    read_page res = Ok (page_items res, more, next_cursor res)
    /\ truthy more = has_more res.
Proof.
  unfold readable, page_items, next_cursor, has_more.
  destruct (read_page res) as [[[items more] c]|e]; [|discriminate].
  intros _. now exists more.
Qed.

Lemma get_all_pages_loop_more (pre : list json)
      (replies : list (result json)) (all_pages : list json)
      (start_cursor : json) :
  forallb more_page pre = true ->
  get_all_pages_loop (map Ok pre ++ replies) all_pages start_cursor
  = let (evs, out) :=
      get_all_pages_loop replies (all_pages ++ flat_map page_items pre)
        (last_cursor start_cursor pre) in
    (cursor_queries start_cursor pre ++ evs, out).
Proof.
  revert all_pages start_cursor.
  induction pre as [|res pre IH]; intros all_pages start_cursor Hpre.
  - cbn. rewrite app_nil_r. now destruct (get_all_pages_loop _ _ _).
  - cbn [forallb] in Hpre. apply andb_true_iff in Hpre as [Hres Hpre].
    apply andb_true_iff in Hres as [Hread Hmore].
    destruct (read_page_parts _ Hread) as (more & E & Ht).
    cbn [map app get_all_pages_loop query_database bind].
    rewrite E, Ht, Hmore, (IH _ _ Hpre).
    cbn [flat_map cursor_queries last_cursor]. rewrite app_assoc.
    now destruct (get_all_pages_loop replies _ _).
Qed.

Lemma get_all_pages_loop_last (res : json) (replies : list (result json))
      (all_pages : list json) (start_cursor : json) :
  last_page res = true ->
  get_all_pages_loop (Ok res :: replies) all_pages start_cursor
  = ([Query (payload_cursor start_cursor)],
     Some (Ok (all_pages ++ page_items res))).
Proof.
  intros H. apply andb_true_iff in H as [Hread Hmore].
  destruct (read_page_parts _ Hread) as (more & E & Ht).
  cbn [get_all_pages_loop query_database bind]. rewrite E, Ht.
  apply negb_true_iff in Hmore. now rewrite Hmore.
Qed.

Lemma get_all_pages_loop_raise (e : exn) (replies : list (result json))
      (all_pages : list json) (start_cursor : json) :
  get_all_pages_loop (Raise e :: replies) all_pages start_cursor
  = ([Query (payload_cursor start_cursor)], Some (Raise e)).
Proof. reflexivity. Qed.

Lemma cursor_queries_snoc (start_cursor : json) (pre : list json)
      (res : json) :
  cursor_queries start_cursor (pre ++ [res])
  = cursor_queries start_cursor pre
    ++ [Query (payload_cursor (last_cursor start_cursor pre))].
Proof.
  revert start_cursor; induction pre as [|a pre IH]; intros c;
    [reflexivity|].
  cbn [app cursor_queries last_cursor]. now rewrite IH.
Qed.

Lemma cursor_queries_length (start_cursor : json) (pages : list json) :
  length (cursor_queries start_cursor pages) = length pages.
Proof.
  revert start_cursor; induction pages as [|a l IH]; intros c;
    [reflexivity|].
  cbn [cursor_queries length]. now rewrite IH.
Qed.

Lemma cursor_queries_nth (start_cursor : json) (pages : list json)
      (i : nat) (res : json) :
  nth_error pages i = Some res ->
  S i < length pages ->
  nth_error (cursor_queries start_cursor pages) (S i)
  = Some (Query (payload_cursor (next_cursor res))).
Proof.
  revert start_cursor i; induction pages as [|a l IH]; intros c i Hi Hlen.
  - destruct i; discriminate.
  - destruct i as [|i]; cbn in Hi.
    + injection Hi as ->. destruct l as [|b l]; [simpl in Hlen; lia|].
      reflexivity.
    + cbn [cursor_queries]. cbn [nth_error].
      apply IH; [exact Hi|]. simpl in Hlen. lia.
Qed.

Lemma cursor_queries_are_queries (start_cursor : json) (pages : list json) :
  Forall is_query (cursor_queries start_cursor pages).
Proof.
  revert start_cursor; induction pages as [|a l IH]; intros c;
    constructor; [exact I|apply IH].
Qed.

(** C8 (counterexample): a reply with [has_more] true whose [next_cursor]
    is the empty string.  [query_database] tests [if start_cursor:], so
    the second query carries no cursor at all. *)
Lemma passes_cursor_on_fails :
  let first := reply_page [JInt 1] true (JStr []) in
  let replies := [Ok (reply_page [JInt 2] false JNull)] in
  more_page first = true
  /\ next_cursor first = JStr []
  /\ get_all_pages (Ok first :: replies)
     = ([Query None; Query None], Some (Ok [JInt 1; JInt 2]))
  /\ ~ passes_cursor_on first replies.
Proof.
  cbn zeta. repeat split; try reflexivity.
  intros H. unfold passes_cursor_on in H.
  assert (H' := H eq_refl ltac:(discriminate)). discriminate H'.
Qed.

(** C8 (amended): when the store answers [pre], replies with [has_more]
    truthy, and then [last], a reply with [has_more] falsy,
    [get_all_pages] sends one query per reply and no more, whatever
    replies would follow; the first query has no cursor, the query after
    a reply carries that reply's [next_cursor] when it is truthy and no
    cursor when it is not; the result is the pages of all these replies,
    in order.  When the store answers [pre] and then fails, the failure
    leaves [main]: the run has sent queries only and reports no
    archival. *)
Theorem pagination_threads_truthy_cursors
        (pre : list json) (last : json) (rest : list (result json))
        (e : exn) (lower : pystr -> pystr) (a : args) (r : remote)
        (stdin : option pystr) :
  forallb more_page pre = true ->
  last_page last = true ->
  query_replies r = map Ok pre ++ Raise e :: rest ->
  (let (sent, out) := get_all_pages (map Ok pre ++ Ok last :: rest) in
   out = Some (Ok (flat_map page_items (pre ++ [last])))
   /\ length sent = S (length pre)
   /\ nth_error sent 0 = Some (Query None)
   /\ (forall i res,
         nth_error pre i = Some res ->
         nth_error sent (S i)
         = Some (Query (if truthy (next_cursor res)
                        then Some (next_cursor res) else None))))
  /\ (let out := main lower a r stdin in
      ending out = Crashed e
      /\ length (events out) = S (length pre)
      /\ Forall is_query (events out)
      /\ report out = []).
Proof.
  intros Hpre Hlast Hr. split.
  - unfold get_all_pages.
    rewrite (get_all_pages_loop_more _ _ _ _ Hpre).
    rewrite (get_all_pages_loop_last _ _ _ _ Hlast).
    rewrite <- (cursor_queries_snoc JNull pre last).
    rewrite flat_map_app. cbn [flat_map app]. rewrite app_nil_r.
    split; [reflexivity|]. split; [|split].
    + rewrite cursor_queries_length, length_app. simpl. lia.
    + destruct pre; reflexivity.
    + intros i res Hi.
      apply cursor_queries_nth.
      * rewrite nth_error_app1; [exact Hi|].
        apply nth_error_Some. congruence.
      * rewrite length_app. simpl.
        assert (i < length pre) by (apply nth_error_Some; congruence).
        lia.
  - unfold main, get_all_pages. rewrite Hr.
    rewrite (get_all_pages_loop_more _ _ _ _ Hpre).
    rewrite get_all_pages_loop_raise. cbn.
    split; [reflexivity|]. split; [|split; [|reflexivity]].
    + rewrite length_app, cursor_queries_length. simpl. lia.
    + apply Forall_app. split; [apply cursor_queries_are_queries|].
      repeat constructor.
Qed.

Lemma pagination_threads_truthy_cursors_witness :
  let pre := [reply_page [JInt 1] true (JStr (u "c1"));
              reply_page [JInt 2] true (JStr (u "c2"))] in
  let last := reply_page [JInt 3] false JNull in
  get_all_pages (map Ok pre ++ [Ok last])
  = ([Query None; Query (Some (JStr (u "c1")));
      Query (Some (JStr (u "c2")))],
     Some (Ok [JInt 1; JInt 2; JInt 3]))
  /\ ending (main (fun s => s) (mk_args false true)
               (mk_remote (map Ok pre ++ [Raise RequestException])
                  (fun _ _ => Ok JNull))
               None)
     = Crashed RequestException.
Proof.
  cbn zeta. split; [reflexivity|].
  refine (proj1 (proj2
    (pagination_threads_truthy_cursors
       [reply_page [JInt 1] true (JStr (u "c1"));
        reply_page [JInt 2] true (JStr (u "c2"))]
       (reply_page [JInt 3] false JNull) [] RequestException
       (fun s => s) (mk_args false true)
       (mk_remote _ (fun _ _ => Ok JNull)) None
       eq_refl eq_refl eq_refl))).
Defined.

(** ** The Projector *)

Lemma segments_total (l : list json) :
  forallb segment_ok l = true ->
  exists texts s,
    mapM (fun t => py_get t key_plain_text (JStr [])) l = Ok texts
    /\ join texts = Ok s.
Proof.
  induction l as [|t l IH]; [now exists [], []|].
  cbn [forallb]. intros H. apply andb_true_iff in H as [Ht Hl].
  destruct (IH Hl) as (texts & s & Hm & Hj).
  destruct t as [| | | | |?|d]; try discriminate.
  cbn [mapM py_get bind segment_ok] in *. rewrite Hm. cbn [bind].
  destruct (lookup key_plain_text d) as [[| | | |s0| |]|];
    try discriminate.
  - exists (JStr s0 :: texts), (s0 ++ s). cbn [join]. now rewrite Hj.
  - exists (JStr [] :: texts), s. cbn [join]. now rewrite Hj.
Qed.

Lemma property_text_total (prop : json) (k : pystr) :
  property_ok prop k = true ->
  exists s,
    property_text prop k = Ok s
    /\ (absent_or_falsy (field prop k) = true -> s = []).
Proof.
  destruct prop as [| | | | |?|d]; try discriminate.
  cbn [property_ok field]. unfold property_text. cbn [py_get bind].
  unfold text_ok, or_default.
  destruct (lookup k d) as [v|] eqn:E; cbn [absent_or_falsy].
  - destruct (truthy v) eqn:Hv; cbn [negb orb].
    + intros H. destruct v as [| | | | |l|?]; try discriminate.
      cbn [subscript]. rewrite E. cbn [bind].
      destruct (segments_total _ H) as (texts & s & Hm & Hj).
      exists s. split; [|discriminate].
      unfold plain_text_of. cbn [py_iter bind]. rewrite Hm. exact Hj.
    + intros _. now exists [].
  - intros _. now exists [].
Qed.

Lemma strip_empty (s : pystr) : s = [] -> strip s = [].
Proof. now intros ->. Qed.

(** C3 (counterexample): a raw record without [id] raises [KeyError]
    ([page["id"]]), and one whose [properties] is [null] raises
    [AttributeError] ([None.get]). *)
Lemma projector_total_fails :
  extract_page_info (JDict [(key_url, JStr (u "https://x"))])
  = Raise KeyError
  /\ extract_page_info
       (JDict [(key_id, JStr (u "p1")); (key_properties, JNull)])
     = Raise AttributeError
  /\ ~ projector_total.
Proof.
  split; [reflexivity|]. split; [reflexivity|].
  intros H. destruct (H (JDict [])) as [info Hinfo]. discriminate.
Qed.

(** C3 (amended): the Projector returns a record for every raw record
    that is a dict with an [id], whose [properties], title property and
    body property are dicts when present, and whose [title] and
    [rich_text] are falsy or lists of dicts with a string (or no)
    [plain_text].  The record has the raw [id]; [created_time] and [url]
    are the raw values, the empty string when absent; title and content
    are empty when their property, or its text, is absent or falsy. *)
Theorem projector_total_on_projectable (page : json) :
  projectable page = true ->
  exists info,
    extract_page_info page = Ok info
    /\ field page key_id = Some (id info)
    /\ created_time info
       = or_default (field page key_created_time) (JStr [])
    /\ url info = or_default (field page key_url) (JStr [])
    /\ (absent_or_falsy (property_value page key_name key_title) = true ->
        title info = [])
    /\ (absent_or_falsy (property_value page key_body key_rich_text) = true ->
        content info = []).
Proof.
  destruct page as [| | | | |?|d]; try discriminate.
  cbn [projectable]. destruct (lookup key_id d) as [i|] eqn:Hid;
    [|discriminate].
  unfold property_value. cbn [field].
  destruct (lookup key_properties d) as [props|] eqn:Hprops;
    cbn [or_default].
  - destruct props as [| | | | |?|ps]; try discriminate.
    intros H. apply andb_true_iff in H as [Ht Hc].
    destruct (property_text_total _ _ Ht) as (t & Et & Dt).
    destruct (property_text_total _ _ Hc) as (c & Ec & Dc).
    unfold extract_page_info. cbn [subscript py_get bind].
    rewrite Hid, Hprops. cbn [py_get bind]. unfold or_default in Et, Ec.
    rewrite Et. cbn [bind]. rewrite Ec. cbn [bind].
    eexists. split; [reflexivity|]. cbn [id created_time url title content].
    unfold or_default. repeat split.
    + intros Ha. apply strip_empty, Dt. cbn [field] in Ha.
      destruct (lookup key_name ps); [exact Ha|reflexivity].
    + intros Ha. apply strip_empty, Dc. cbn [field] in Ha.
      destruct (lookup key_body ps); [exact Ha|reflexivity].
  - intros _. unfold extract_page_info. cbn [subscript py_get bind].
    rewrite Hid, Hprops. cbn.
    eexists. split; [reflexivity|]. cbn [id created_time url title content].
    unfold or_default. repeat split.
Qed.

Lemma projector_total_on_projectable_witness :
  exists info,
    extract_page_info sample_raw = Ok info
    /\ field sample_raw key_id = Some (id info)
    /\ created_time info
       = or_default (field sample_raw key_created_time) (JStr [])
    /\ url info = or_default (field sample_raw key_url) (JStr [])
    /\ (absent_or_falsy (property_value sample_raw key_name key_title)
        = true -> title info = [])
    /\ (absent_or_falsy (property_value sample_raw key_body key_rich_text)
        = true -> content info = []).
Proof.
  apply (projector_total_on_projectable sample_raw). reflexivity.
Defined.

Example sample_projection :
  extract_page_info sample_raw
  = Ok (mk_page_info (JStr (u "p1")) (u "Groceries") [] (JStr [])
          (JStr (u "https://notion.so/p1"))).
Proof. reflexivity. Qed.

(** The Projector raises on every other raw record. *)
Lemma segments_readable (l : list json) (texts : list json) (s : pystr) :
  mapM (fun t => py_get t key_plain_text (JStr [])) l = Ok texts ->
  join texts = Ok s ->
  forallb segment_ok l = true.
Proof.
  revert texts s; induction l as [|t l IH]; intros texts s Hm Hj;
    [reflexivity|].
  cbn [mapM] in Hm.
  destruct t as [| | | | |?|d]; try discriminate.
  cbn [py_get bind] in Hm.
  destruct (mapM _ l) as [texts'|] eqn:Hm'; [|discriminate].
  cbn [bind] in Hm. injection Hm as <-.
  cbn [forallb segment_ok].
  destruct (lookup key_plain_text d) as [[| | | |s0| |]|];
    cbn [join] in Hj; try discriminate;
    (destruct (join texts') as [s'|] eqn:Hj'; [|discriminate]);
    now rewrite (IH _ _ eq_refl Hj').
Qed.

Lemma plain_text_readable (v : json) (s : pystr) :
  truthy v = true -> plain_text_of v = Ok s -> text_ok v = true.
Proof.
  unfold text_ok, plain_text_of. intros Hv. rewrite Hv. cbn [negb orb].
  destruct v as [| | | |[|c s0]|l|[|[k x] d]]; try discriminate.
  - cbn [py_iter bind]. intros H.
    destruct (mapM _ l) as [texts|] eqn:Hm; [|discriminate].
    eapply segments_readable; eauto.
Qed.

Lemma property_text_readable (prop : json) (k : pystr) (s : pystr) :
  property_text prop k = Ok s -> property_ok prop k = true.
Proof.
  destruct prop as [| | | | |?|d]; try discriminate.
  unfold property_text. cbn [py_get bind property_ok].
  destruct (lookup k d) as [v|] eqn:E; cbn [or_default]; [|reflexivity].
  destruct (truthy v) eqn:Hv.
  - cbn [subscript]. rewrite E. cbn [bind].
    now apply plain_text_readable.
  - intros _. unfold text_ok. now rewrite Hv.
Qed.

Lemma extract_page_info_projectable (page : json) (info : page_info json) :
  extract_page_info page = Ok info -> projectable page = true.
Proof.
  destruct page as [| | | | |?|d]; try discriminate.
  unfold extract_page_info. cbn [subscript py_get bind projectable].
  destruct (lookup key_id d) as [i|]; [|discriminate]. cbn [bind].
  destruct (lookup key_properties d) as [props|]; cbn [or_default].
  - destruct props as [| | | | |?|ps]; try discriminate.
    cbn [py_get bind].
    destruct (property_text _ key_title) as [t|] eqn:Et; [|discriminate].
    cbn [bind].
    destruct (property_text _ key_rich_text) as [c|] eqn:Ec;
      [|discriminate].
    intros _. apply property_text_readable in Et, Ec.
    unfold or_default. now rewrite Et, Ec.
  - reflexivity.
Qed.

(** ** A record without [created_time] *)

Lemma extract_page_info_created_time (page : json) (info : page_info json) :
  extract_page_info page = Ok info ->
  created_time info = or_default (field page key_created_time) (JStr []).
Proof.
  destruct page as [| | | | |?|d]; try discriminate.
  unfold extract_page_info. cbn [subscript py_get bind field].
  destruct (lookup key_id d) as [i|]; [|discriminate]. cbn [bind].
  destruct (py_get _ key_name _) as [tp|]; [|discriminate]. cbn [bind].
  destruct (property_text tp key_title) as [t|]; [|discriminate].
  cbn [bind].
  destruct (py_get _ key_body _) as [cp|]; [|discriminate]. cbn [bind].
  destruct (property_text cp key_rich_text) as [c|]; [|discriminate].
  cbn [bind]. now intros [= <-].
Qed.

Lemma two_distinct_length {A} (a b : A) (l : list A) :
  In a l -> In b l -> a <> b -> 2 <= length l.
Proof.
  destruct l as [|x [|y l]]; simpl; try tauto; try lia.
  intros [->|[]] [->|[]]. congruence.
Qed.

Lemma pystr_lt_nonempty (a b : pystr) :
  pystr_lt a b = true -> nonempty b = true.
Proof. destruct a, b; simpl; congruence. Qed.

Lemma pystr_le_nonempty (a b : pystr) :
  pystr_le a b = true -> nonempty a = true -> nonempty b = true.
Proof.
  unfold pystr_le. destruct b; [|reflexivity].
  rewrite pystr_lt_empty. intros H Ha. rewrite Ha in H. discriminate.
Qed.

(** In the group of its title, a record with an empty [created_time] is
    removed as soon as another record of the title has a non-empty one. *)
Lemma empty_time_is_removed (pages : list page) (p q : page) :
  In p pages -> In q pages ->
  title q = title p ->
  nonempty (title p) = true ->
  created_time p = [] ->
  nonempty (created_time q) = true ->
  exists g,
    In (title p, g) (find_duplicates pages)
    /\ In p (remove g)
    /\ keep g <> p
    /\ nonempty (created_time (keep g)) = true.
Proof.
  intros Hp Hq Htitle Hne Hpt Hqt.
  assert (Hpl : In p (titled (title p) pages)).
  { unfold titled. apply filter_In. split; [exact Hp|apply pystr_eqb_refl]. }
  assert (Hql : In q (titled (title p) pages)).
  { unfold titled. apply filter_In. split; [exact Hq|].
    rewrite Htitle. apply pystr_eqb_refl. }
  assert (Hpq : p <> q).
  { intros ->. rewrite Hpt in Hqt. discriminate. }
  pose proof (@two_distinct_length _ p q _ Hpl Hql Hpq) as Hlen.
  destruct (sorted_newest_first (titled (title p) pages)) as [|x r] eqn:Hs.
  { apply (f_equal (@length page)) in Hs.
    rewrite sorted_newest_first_length in Hs. simpl in Hs. lia. }
  assert (Hin : In (title p, mk_dup_info x r) (find_duplicates pages))
    by (apply find_duplicates_In; auto).
  exists (mk_dup_info x r). split; [exact Hin|].
  destruct (find_duplicates_split _ _ _ Hin)
    as (pre & post & Ht & Hpre & Hpost & Hr).
  cbn [keep remove] in *.
  assert (Hx : nonempty (created_time x) = true).
  { rewrite Ht in Hql. rewrite Forall_forall in Hpre, Hpost.
    apply in_app_or in Hql as [Hql|[->|Hql]].
    - eapply pystr_lt_nonempty, Hpre, Hql.
    - exact Hqt.
    - eapply pystr_le_nonempty; [apply Hpost, Hql|exact Hqt]. }
  assert (Hxp : x <> p).
  { intros ->. rewrite Hpt in Hx. discriminate. }
  repeat split; [|exact Hxp|exact Hx].
  rewrite Hr.
  apply (Permutation_in _ (Permutation_sym (sorted_newest_first_perm _))).
  rewrite Ht in Hpl. apply in_app_or in Hpl as [Hpl|[Hpl|Hpl]].
  - apply in_or_app. now left.
  - contradiction.
  - apply in_or_app. now right.
Qed.

(** C10: a raw record without [created_time] is projected with the empty
    string as its [created_time]; whenever the input also has a record of
    the same non-empty title with a non-empty [created_time], the title
    has a group, whose [keep] has a non-empty [created_time] and so is
    another record, and the record without [created_time] is in
    [remove]. *)
Theorem absent_created_time_is_removed (raw : json)
        (info : page_info json) :
  extract_page_info raw = Ok info ->
  field raw key_created_time = None ->
  exists p,
    created_time info = JStr []
    /\ with_str_time info = Some p
    /\ created_time p = []
    /\ forall pages q,
         In p pages -> In q pages ->
         title q = title p ->
         nonempty (title p) = true ->
         nonempty (created_time q) = true ->
         exists g,
           In (title p, g) (find_duplicates pages)
           /\ In p (remove g)
           /\ keep g <> p
           /\ nonempty (created_time (keep g)) = true.
Proof.
  intros Hinfo Habsent.
  pose proof (extract_page_info_created_time _ Hinfo) as Hct.
  rewrite Habsent in Hct. cbn [or_default] in Hct.
  unfold with_str_time. rewrite Hct.
  eexists. split; [reflexivity|]. split; [reflexivity|].
  split; [reflexivity|].
  intros pages q Hp Hq Htitle Hne Hqt.
  now apply (empty_time_is_removed pages _ q).
Qed.

Lemma absent_created_time_is_removed_witness :
  extract_page_info sample_raw
  = Ok (mk_page_info (JStr (u "p1")) (u "Groceries") [] (JStr [])
          (JStr (u "https://notion.so/p1")))
  /\ field sample_raw key_created_time = None
  /\ exists p,
       JStr [] = JStr []
       /\ Some sample_page = Some p
       /\ created_time p = []
       /\ forall pages q,
            In p pages -> In q pages ->
            title q = title p ->
            nonempty (title p) = true ->
            nonempty (created_time q) = true ->
            exists g,
              In (title p, g) (find_duplicates pages)
              /\ In p (remove g)
              /\ keep g <> p
              /\ nonempty (created_time (keep g)) = true.
Proof.
  split; [reflexivity|]. split; [reflexivity|].
  exact (absent_created_time_is_removed sample_raw eq_refl eq_refl).
Defined.

Example absent_created_time_scenario :
  find_duplicates [sample_page; note "Groceries" "2024-01-01"]
  = [(u "Groceries",
      mk_dup_info (note "Groceries" "2024-01-01") [sample_page])].
Proof. reflexivity. Qed.

(** ** A whole run *)

(** Two pages of replies, two titles that occur twice; the archival of
    the first record fails, the second is archived all the same; with
    [--dry-run] the same store sees the two queries only. *)
Example unattended_run :
  let r :=
    mk_remote
      [Ok (reply_page
             [raw_note "1" "A" "2024-01-01"; raw_note "2" "B" "2024-05-05"]
             true (JStr (u "c1")));
       Ok (reply_page
             [raw_note "3" "B" "2024-02-02"; raw_note "4" "A" "2024-03-03"]
             false JNull)]
      (fun n _ => if Nat.eqb n 0 then Raise RequestException else Ok JNull) in
  main (fun s => s) (mk_args false true) r None
  = mk_run
      [Query None; Query (Some (JStr (u "c1")));
       Archive (JStr (u "1")); Archive (JStr (u "3"))]
      [ArchiveFailed (u "A") RequestException; Archived (u "B")]
      RetirementAttempted
  /\ main (fun s => s) (mk_args true true) r None
     = mk_run [Query None; Query (Some (JStr (u "c1")))] [] PreviewRendered.
Proof. split; reflexivity. Qed.

Unset Implicit Arguments.

(** ** More on the groups *)

Lemma members_in_input (pages : list page) (k : pystr) (g : dup_info)
      (p : page) :
  In (k, g) (find_duplicates pages) ->
  In p (members g) ->
  In p (titled k pages).
Proof.
  intros Hin Hp. apply find_duplicates_In in Hin as (_ & _ & Hs).
  unfold members in Hp. rewrite <- Hs in Hp.
  exact (Permutation_in _ (sorted_newest_first_perm _) Hp).
Qed.

Lemma titled_In (k : pystr) (pages : list page) (p : page) :
  In p (titled k pages) <-> In p pages /\ title p = k.
Proof.
  unfold titled. rewrite filter_In.
  destruct (pystr_eqb_spec (title p) k); intuition congruence.
Qed.

(** The [keep] of a group is at least as new as each of its records. *)
Lemma keep_is_newest_member (pages : list page) (k : pystr) (g : dup_info)
      (p : page) :
  In (k, g) (find_duplicates pages) ->
  In p (members g) ->
  not_newer_than (keep g) p.
Proof.
  intros Hin Hp. pose proof (members_in_input _ _ _ _ Hin Hp) as Hp'.
  destruct (find_duplicates_split _ _ _ Hin)
    as (pre & post & Ht & Hpre & Hpost & _).
  rewrite Ht in Hp'. rewrite Forall_forall in Hpre, Hpost.
  unfold not_newer_than.
  apply in_app_or in Hp' as [Hp'|[<-|Hp']].
  - apply pystr_lt_le, Hpre, Hp'.
  - apply pystr_le_refl.
  - apply Hpost, Hp'.
Qed.

(** X1: every group of the output has a non-empty key that two or more
    records of the input carry, and at least one record to remove. *)
Theorem groups_are_real_duplicates (pages : list page) (k : pystr)
        (g : dup_info) :
  In (k, g) (find_duplicates pages) ->
  nonempty k = true
  /\ 2 <= length (titled k pages)
  /\ remove g <> []
  /\ title (keep g) = k.
Proof.
  intros Hin. pose proof Hin as Hin'.
  apply find_duplicates_In in Hin' as (Hne & Hlen & Hs).
  repeat split; try assumption.
  - intros E. apply (f_equal (@length page)) in Hs.
    rewrite sorted_newest_first_length, E in Hs. simpl in Hs. lia.
  - apply (titled_In k pages). apply (members_in_input _ _ _ _ Hin).
    now left.
Qed.

Lemma groups_are_real_duplicates_witness :
  nonempty (u "Groceries") = true
  /\ 2 <= length (titled (u "Groceries") groceries_input)
  /\ remove groceries_group <> []
  /\ title (keep groceries_group) = u "Groceries".
Proof.
  apply (groups_are_real_duplicates groceries_input).
  left; reflexivity.
Defined.

(** When no non-empty title is carried twice, nothing is reported. *)
Lemma find_duplicates_nil (pages : list page) :
  (forall k, nonempty k = true -> length (titled k pages) <= 1) ->
  find_duplicates pages = [].
Proof.
  intros H. destruct (find_duplicates pages) as [|[k g] rest] eqn:E;
    [reflexivity|].
  assert (Hin : In (k, g) (find_duplicates pages))
    by (rewrite E; now left).
  apply find_duplicates_In in Hin as (Hne & Hlen & _).
  specialize (H k Hne). lia.
Qed.

(** X2: [find_duplicates] returns the empty dict exactly when no
    non-empty title is carried by two records of the input. *)
Theorem no_duplicates_iff_titles_distinct (pages : list page) :
  find_duplicates pages = []
  <-> forall k, nonempty k = true -> length (titled k pages) <= 1.
Proof.
  split; [|apply find_duplicates_nil].
  intros E k Hne.
  destruct (le_lt_dec (length (titled k pages)) 1) as [H|H]; [exact H|].
  destruct (sorted_newest_first (titled k pages)) as [|x r] eqn:Hs.
  { apply (f_equal (@length page)) in Hs.
    rewrite sorted_newest_first_length in Hs. simpl in Hs. lia. }
  assert (Hin : In (k, mk_dup_info x r) (find_duplicates pages))
    by (apply find_duplicates_In; repeat split; [exact Hne|lia|exact Hs]).
  rewrite E in Hin. destruct Hin.
Qed.

Lemma by_title_skips_empty_titles (pages : list page)
      (d : list (pystr * list page)) :
  fold_left
    (fun d p => if nonempty (title p) then append_to (title p) p d else d)
    (filter (fun p => nonempty (title p)) pages) d
  = fold_left
      (fun d p => if nonempty (title p) then append_to (title p) p d else d)
      pages d.
Proof.
  revert d; induction pages as [|p pages IH]; intros d; [reflexivity|].
  cbn [filter fold_left].
  destruct (nonempty (title p)) eqn:Hne; cbn [fold_left].
  - rewrite Hne. apply IH.
  - apply IH.
Qed.

(** X3: the records with an empty title have no part in the result:
    leaving them out of the input gives the same groups. *)
Theorem empty_titles_are_ignored (pages : list page) :
  find_duplicates (filter (fun p => nonempty (title p)) pages)
  = find_duplicates pages.
Proof.
  unfold find_duplicates, by_title.
  now rewrite by_title_skips_empty_titles.
Qed.

Lemma NoDup_map_In_eq {A B} (f : A -> B) (l : list A) (a b : A) :
  NoDup (map f l) -> In a l -> In b l -> f a = f b -> a = b.
Proof.
  induction l as [|x l IH]; [intros _ []|].
  cbn [map]. intros Hnd Ha Hb E. inversion Hnd as [|? ? Hx Hl]; subst.
  destruct Ha as [->|Ha], Hb as [->|Hb]; try reflexivity.
  - exfalso. apply Hx. rewrite E. now apply in_map.
  - exfalso. apply Hx. rewrite <- E. now apply in_map.
  - now apply IH.
Qed.

Lemma schedule_In (duplicates : list (pystr * dup_info)) (tp : pystr * page) :
  In tp (schedule duplicates)
  <-> exists g, In (fst tp, g) duplicates /\ In (snd tp) (remove g).
Proof.
  unfold schedule. rewrite in_flat_map. split.
  - intros ([k g] & Hkg & Htp). cbn [fst snd] in Htp.
    apply in_map_iff in Htp as (p & <- & Hp). now exists g.
  - intros (g & Hg & Hp). exists (fst tp, g). split; [exact Hg|].
    cbn [fst snd]. apply in_map_iff. exists (snd tp).
    split; [now destruct tp|exact Hp].
Qed.

(** X4: when the records of the input have pairwise distinct ids, no
    record chosen as [keep] is archived: the id of a [keep] is not among
    the ids the archival loop sends. *)
Theorem keep_is_never_archived (pages : list page) (k : pystr)
        (g : dup_info) :
  NoDup (map id pages) ->
  In (k, g) (find_duplicates pages) ->
  ~ In (id (keep g)) (archived_ids (find_duplicates pages)).
Proof.
  intros Hnd Hin Harch. unfold archived_ids in Harch.
  apply in_map_iff in Harch as ([k' r] & Hid & Htp). cbn [snd] in Hid.
  apply schedule_In in Htp as (g' & Hg' & Hr). cbn [fst snd] in Hg', Hr.
  assert (Hkeep : In (keep g) (titled k pages))
    by (apply (members_in_input _ _ _ _ Hin); now left).
  assert (Hrem : In r (titled k' pages))
    by (apply (members_in_input _ _ _ _ Hg'); now right).
  apply titled_In in Hkeep as [Hkeep Hk].
  apply titled_In in Hrem as [Hrem Hk'].
  assert (E : r = keep g) by (eapply NoDup_map_In_eq; eauto).
  subst r. assert (Ek : k' = k) by congruence. rewrite Ek in Hg'.
  assert (g' = g) by (eapply find_duplicates_functional; eauto). subst g'.
  apply find_duplicates_In in Hin as (_ & _ & Hs).
  assert (Hnd' : NoDup (keep g :: remove g)).
  { rewrite <- Hs.
    eapply Permutation_NoDup;
      [apply Permutation_sym, sorted_newest_first_perm|].
    unfold titled. apply NoDup_filter.
    eapply NoDup_map_inv. exact Hnd. }
  inversion Hnd' as [|? ? Hx _]; subst. contradiction.
Qed.

Lemma keep_is_never_archived_witness :
  ~ In (id (keep groceries_group))
      (archived_ids (find_duplicates groceries_input)).
Proof.
  apply (keep_is_never_archived groceries_input (u "Groceries")).
  - cbn. repeat constructor; cbn; intuition discriminate.
  - left; reflexivity.
Defined.

Lemma titled_perm (k : pystr) (pages pages' : list page) :
  Permutation pages pages' ->
  Permutation (titled k pages) (titled k pages').
Proof.
  unfold titled. induction 1 as [|x l l' _ IH|x y l|l l' l'' _ IH1 _ IH2];
    cbn [filter].
  - constructor.
  - destruct (pystr_eqb (title x) k); [now constructor|exact IH].
  - destruct (pystr_eqb (title x) k), (pystr_eqb (title y) k);
      try reflexivity. apply perm_swap.
  - now transitivity (filter (fun p => pystr_eqb (title p) k) l').
Qed.

Lemma pystr_le_antisym (a b : pystr) :
  pystr_le a b = true -> pystr_le b a = true -> a = b.
Proof.
  unfold pystr_le. intros H1 H2.
  apply negb_true_iff in H1, H2. now apply pystr_lt_connex.
Qed.

(** X5: the result does not depend on the order of the input beyond the
    choice among equally new records: for a rearranged input, every title
    that had a group still has one, with the same records, and its [keep]
    has the same [created_time]. *)
Theorem groups_do_not_depend_on_order (pages pages' : list page)
        (k : pystr) (g : dup_info) :
  Permutation pages pages' ->
  In (k, g) (find_duplicates pages) ->
  exists g',
    In (k, g') (find_duplicates pages')
    /\ Permutation (members g') (members g)
    /\ created_time (keep g') = created_time (keep g).
Proof.
  intros Hperm Hin. pose proof Hin as Hin0.
  apply find_duplicates_In in Hin0 as (Hne & Hlen & Hs).
  pose proof (titled_perm k _ _ Hperm) as Ht.
  pose proof (Permutation_length Ht) as Hlen'.
  destruct (sorted_newest_first (titled k pages')) as [|x r] eqn:Hs'.
  { apply (f_equal (@length page)) in Hs'.
    rewrite sorted_newest_first_length in Hs'. simpl in Hs'. lia. }
  assert (Hin' : In (k, mk_dup_info x r) (find_duplicates pages'))
    by (apply find_duplicates_In; repeat split; [exact Hne|lia|exact Hs']).
  assert (Hm : Permutation (members (mk_dup_info x r)) (members g)).
  { unfold members. cbn [keep remove]. rewrite <- Hs, <- Hs'.
    rewrite !sorted_newest_first_perm. now symmetry. }
  exists (mk_dup_info x r). split; [exact Hin'|]. split; [exact Hm|].
  apply pystr_le_antisym.
  - apply (keep_is_newest_member pages k g _ Hin).
    apply (Permutation_in _ Hm). now left.
  - apply (keep_is_newest_member pages' k _ _ Hin').
    apply (Permutation_in _ (Permutation_sym Hm)). now left.
Qed.

Lemma groups_do_not_depend_on_order_witness :
  exists g',
    In (u "Groceries", g') (find_duplicates (rev groceries_input))
    /\ Permutation (members g') (members groceries_group)
    /\ created_time (keep g') = created_time (keep groceries_group).
Proof.
  apply (groups_do_not_depend_on_order groceries_input).
  - apply Permutation_rev.
  - left; reflexivity.
Defined.

(** ** The summary and the archival *)

Lemma summary_total (duplicates : list (pystr * dup_info)) (n : nat) :
  snd (summary duplicates n) = n + length (schedule duplicates).
Proof.
  revert n; induction duplicates as [|[t g] d IH]; intros n.
  - simpl. lia.
  - cbn [summary]. specialize (IH (n + length (remove g))).
    destruct (summary d (n + length (remove g))) as [blocks total].
    cbn [snd] in *. rewrite IH. unfold schedule. cbn [flat_map fst snd].
    rewrite length_app, length_map. lia.
Qed.

(** X6: the number of records the summary announces is the number of
    archival requests the loop then sends, and of report lines it
    prints, whatever the store answers. *)
Theorem announced_total_is_sent (reply : nat -> json -> result json)
        (duplicates : list (pystr * dup_info)) :
  let '(sent, lines, n) := archive_all reply 0 duplicates in
  length sent = total_to_remove duplicates
  /\ length lines = total_to_remove duplicates
  /\ n = total_to_remove duplicates.
Proof.
  rewrite archive_all_eq. unfold total_to_remove.
  rewrite summary_total, lines_of_length, length_map. cbn. auto.
Qed.

Lemma grouped_records_length (duplicates : list (pystr * dup_info)) :
  length (flat_map (fun kg => members (snd kg)) duplicates)
  = length duplicates + length (schedule duplicates).
Proof.
  induction duplicates as [|[t g] d IH]; [reflexivity|].
  unfold schedule in *. cbn [flat_map fst snd length].
  rewrite !length_app, length_map. unfold members at 1. cbn [length]. lia.
Qed.

Lemma grouped_records_shared (pages : list page) :
  Permutation (grouped_records pages)
    (filter (fun p => nonempty (title p) && shared pages (title p)) pages).
Proof.
  unfold grouped_records. rewrite find_duplicates_eq.
  rewrite grouped_records_perm.
  rewrite shared_records_perm by apply first_seen_NoDup.
  erewrite filter_ext_in; [reflexivity|].
  intros p Hp. cbv beta. f_equal.
  destruct (nonempty (title p)) eqn:Hne.
  - apply existsb_pystr_In, first_seen_In, keyed_In. split; [exact Hne|].
    now apply in_map.
  - destruct (existsb _ _) eqn:Ex; [|reflexivity].
    apply (proj1 (existsb_pystr_In _ _)) in Ex.
    apply (proj1 (first_seen_In _ _)) in Ex.
    apply (proj1 (keyed_In _ _)) in Ex as [Ex _]. congruence.
Qed.

(** X7: the announced number is the number of records whose non-empty
    title occurs twice or more, less one per such title. *)
Theorem announced_total_counts_surplus (pages : list page) :
  total_to_remove (find_duplicates pages) + length (find_duplicates pages)
  = length
      (filter (fun p => nonempty (title p) && shared pages (title p)) pages).
Proof.
  pose proof (Permutation_length (grouped_records_shared pages)) as H.
  unfold grouped_records in H. rewrite grouped_records_length in H.
  unfold total_to_remove. rewrite summary_total.
  etransitivity; [|exact H]. lia.
Qed.

(** X8: the preview of a content is never longer than 33 code points;
    a non-empty content of at most 30 code points is shown whole, and
    still followed by the dots; a longer one is cut after 30. *)
Theorem preview_is_short (c : pystr) :
  length (preview c) <= 33
  /\ (nonempty c = true -> length c <= 30 -> preview c = c ++ u "...")
  /\ (30 <= length c ->
      preview c = firstn 30 c ++ u "..." /\ length (preview c) = 33).
Proof.
  unfold preview. split; [|split].
  - destruct (nonempty c).
    + rewrite length_app, length_firstn.
      change (length (u "...")) with 3. lia.
    + simpl. lia.
  - intros -> Hlen. now rewrite firstn_all2.
  - intros Hlen. assert (Hne : nonempty c = true).
    { destruct c; [simpl in Hlen; lia|reflexivity]. }
    rewrite Hne. split; [reflexivity|].
    rewrite length_app, length_firstn.
    change (length (u "...")) with 3. lia.
Qed.

(** ** More on the Projector *)

Lemma lstrip_split (s : pystr) :
  exists sp, s = sp ++ lstrip s /\ forallb is_space sp = true.
Proof.
  induction s as [|c s (sp & E & Hsp)]; [now exists []|].
  cbn [lstrip]. destruct (is_space c) eqn:Hc.
  - exists (c :: sp). cbn [app forallb]. rewrite Hc, Hsp.
    split; [now f_equal|reflexivity].
  - now exists [].
Qed.

Lemma lstrip_head (s : pystr) (c : N) (rest : pystr) :
  lstrip s = c :: rest -> is_space c = false.
Proof.
  induction s as [|a s IH]; [discriminate|].
  cbn [lstrip]. destruct (is_space a) eqn:Ha; [exact IH|].
  now intros [= <- _].
Qed.

Lemma rstrip_split (s : pystr) :
  exists sp, s = rstrip s ++ sp /\ forallb is_space sp = true.
Proof.
  destruct (lstrip_split (rev s)) as (sp & E & Hsp).
  exists (rev sp). split.
  - unfold rstrip. rewrite <- rev_app_distr, <- E. now rewrite rev_involutive.
  - rewrite forallb_forall in *. intros x Hx. apply Hsp.
    now apply in_rev.
Qed.

Lemma rstrip_last (s front : pystr) (c : N) :
  rstrip s = front ++ [c] -> is_space c = false.
Proof.
  unfold rstrip. intros E. apply (f_equal (@rev N)) in E.
  rewrite rev_involutive, rev_app_distr in E. cbn in E.
  exact (lstrip_head _ _ _ E).
Qed.

Lemma strip_trimmed (s : pystr) : trimmed (strip s).
Proof.
  unfold strip. split.
  - intros c rest E.
    destruct (rstrip_split (lstrip s)) as (sp & Hs & _).
    rewrite E in Hs. cbn [app] in Hs. exact (lstrip_head _ _ _ Hs).
  - intros front c E. exact (rstrip_last _ _ _ E).
Qed.

Lemma strip_blank (s : pystr) : forallb is_space s = true -> strip s = [].
Proof.
  intros H. unfold strip.
  assert (E : lstrip s = []).
  { induction s as [|c s IH]; [reflexivity|].
    cbn [forallb] in H. apply andb_true_iff in H as [Hc Hs].
    cbn [lstrip]. rewrite Hc. now apply IH. }
  now rewrite E.
Qed.

(** The two texts of a projected record are results of [strip]. *)
Lemma extract_page_info_texts (page : json) (info : page_info json) :
  extract_page_info page = Ok info ->
  exists t c, title info = strip t /\ content info = strip c.
Proof.
  destruct page as [| | | | |?|d]; try discriminate.
  unfold extract_page_info. cbn [subscript py_get bind field].
  destruct (lookup key_id d) as [i|]; [|discriminate]. cbn [bind].
  destruct (py_get _ key_name _) as [tp|]; [|discriminate]. cbn [bind].
  destruct (property_text tp key_title) as [t|]; [|discriminate].
  cbn [bind].
  destruct (py_get _ key_body _) as [cp|]; [|discriminate]. cbn [bind].
  destruct (property_text cp key_rich_text) as [c|]; [|discriminate].
  cbn [bind]. intros [= <-]. now exists t, c.
Qed.

(** X9: the title and the content of every projected record have no
    whitespace at either end. *)
Theorem projected_texts_are_trimmed (page : json) (info : page_info json) :
  extract_page_info page = Ok info ->
  trimmed (title info) /\ trimmed (content info).
Proof.
  intros H. destruct (extract_page_info_texts _ _ H) as (t & c & -> & ->).
  split; apply strip_trimmed.
Qed.

Lemma projected_texts_are_trimmed_witness :
  trimmed (u "Groceries") /\ trimmed [].
Proof.
  exact (projected_texts_are_trimmed sample_raw _ eq_refl).
Defined.

Lemma segments_text_total (l : list json) :
  forallb segment_ok l = true ->
  exists texts,
    mapM (fun t => py_get t key_plain_text (JStr [])) l = Ok texts
    /\ join texts = Ok (flat_map segment_text l).
Proof.
  induction l as [|t l IH]; [now exists []|].
  cbn [forallb]. intros H. apply andb_true_iff in H as [Ht Hl].
  destruct (IH Hl) as (texts & Hm & Hj).
  destruct t as [| | | | |?|d]; try discriminate.
  cbn [mapM py_get bind segment_ok flat_map segment_text] in *.
  rewrite Hm. cbn [bind].
  destruct (lookup key_plain_text d) as [[| | | |s0| |]|];
    try discriminate.
  - exists (JStr s0 :: texts). cbn [join]. now rewrite Hj.
  - exists (JStr [] :: texts). cbn [join]. now rewrite Hj.
Qed.

(** The text of a readable property. *)
Lemma property_text_value (prop : json) (k : pystr) :
  property_ok prop k = true ->
  property_text prop k
  = Ok (segments_text (or_default (field prop k) JNull)).
Proof.
  destruct prop as [| | | | |?|d]; try discriminate.
  cbn [property_ok field]. unfold property_text. cbn [py_get bind].
  unfold text_ok, or_default.
  destruct (lookup k d) as [v|] eqn:E; [|reflexivity].
  destruct (truthy v) eqn:Hv; cbn [negb orb].
  - intros H. destruct v as [| | | | |l|?]; try discriminate.
    cbn [subscript]. rewrite E. cbn [bind].
    destruct (segments_text_total _ H) as (texts & Hm & Hj).
    unfold plain_text_of. cbn [py_iter bind]. rewrite Hm. exact Hj.
  - intros _. destruct v as [| | | | |[|]|]; try reflexivity.
    discriminate.
Qed.

Lemma property_field_value (d ps : list (pystr * json)) (prop k : pystr) :
  or_default (lookup key_properties d) (JDict []) = JDict ps ->
  field (or_default (lookup prop ps) (JDict [])) k
  = property_value (JDict d) prop k.
Proof.
  unfold property_value. cbn [field].
  destruct (lookup key_properties d) as [props|]; cbn [or_default].
  - intros ->. cbn [field]. now destruct (lookup prop ps).
  - intros [= <-]. reflexivity.
Qed.

(** On a readable raw record the Projector returns its projection. *)
Lemma extract_page_info_projection (page : json) :
  projectable page = true ->
  extract_page_info page = Ok (projection page).
Proof.
  destruct page as [| | | | |?|d]; try discriminate.
  cbn [projectable]. destruct (lookup key_id d) as [i|] eqn:Hid;
    [|discriminate].
  destruct (or_default (lookup key_properties d) (JDict []))
    as [| | | | |?|ps] eqn:Hps; try discriminate.
  intros H. apply andb_true_iff in H as [Ht Hc].
  unfold projection, property_string.
  rewrite <- !(property_field_value d ps _ _ Hps).
  apply property_text_value in Ht, Hc.
  unfold extract_page_info. cbn [subscript py_get bind field].
  rewrite Hid. cbn [bind]. fold (or_default (lookup key_properties d) (JDict [])).
  rewrite Hps. cbn [py_get bind].
  fold (or_default (lookup key_name ps) (JDict [])).
  fold (or_default (lookup key_body ps) (JDict [])).
  rewrite Ht. cbn [bind]. rewrite Hc. reflexivity.
Qed.

(** X10: the Projector returns a record exactly on the readable raw
    records, and the record is then made of the raw [id], of the title
    and the content obtained by putting the [plain_text] of the segments
    one after the other, in order, and stripping the result, and of the
    raw [created_time] and [url] (the empty string when absent). *)
Theorem extract_page_info_is_projection (page : json)
        (info : page_info json) :
  extract_page_info page = Ok info
  <-> projectable page = true /\ info = projection page.
Proof.
  split.
  - intros H. pose proof (extract_page_info_projectable _ H) as Hp.
    split; [exact Hp|].
    rewrite (extract_page_info_projection _ Hp) in H. now injection H.
  - intros [Hp ->]. now apply extract_page_info_projection.
Qed.

Example sample_is_projection :
  extract_page_info sample_raw = Ok (projection sample_raw)
  /\ title (projection sample_raw) = u "Groceries".
Proof. split; reflexivity. Qed.

Lemma join_not_KeyError (parts : list json) : join parts <> Raise KeyError.
Proof.
  induction parts as [|[| | | |s| |] parts IH]; cbn [join]; try discriminate.
  destruct (join parts) as [r|e]; cbn [bind]; [discriminate|].
  intros [= ->]. now apply IH.
Qed.

Lemma property_text_not_KeyError (prop : json) (k : pystr) :
  property_text prop k <> Raise KeyError.
Proof.
  destruct prop as [| | | | |?|d]; try discriminate.
  unfold property_text. cbn [py_get bind].
  destruct (lookup k d) as [v|] eqn:E; cbn [truthy];
    [|discriminate].
  destruct (truthy v); [|discriminate].
  cbn [subscript]. rewrite E. cbn [bind]. unfold plain_text_of.
  destruct (py_iter v) as [items|e] eqn:Hi; cbn [bind].
  - assert (Hm : forall l,
               mapM (fun t => py_get t key_plain_text (JStr [])) l
               <> Raise KeyError).
    { induction l as [|t l IH]; [discriminate|]. cbn [mapM].
      destruct t as [| | | | |?|?]; try discriminate.
      cbn [py_get bind].
      destruct (mapM _ l) as [bs|e']; cbn [bind]; [discriminate|].
      intros [= ->]. now apply IH. }
    destruct (mapM _ items) as [texts|e] eqn:Hm'; cbn [bind].
    + apply join_not_KeyError.
    + intros [= ->]. now apply (Hm items).
  - intros [= ->]. destruct v; discriminate.
Qed.

(** X11: the Projector raises [KeyError] exactly on a dict without
    [id], and [TypeError] on every raw record that is not a dict. *)
Theorem extract_page_info_KeyError (page : json) :
  (extract_page_info page = Raise KeyError
   <-> exists d, page = JDict d /\ lookup key_id d = None)
  /\ ((forall d, page <> JDict d) ->
      extract_page_info page = Raise TypeError).
Proof.
  split; [split|].
  - destruct page as [| | | | |?|d]; try discriminate.
    unfold extract_page_info. cbn [subscript py_get bind].
    destruct (lookup key_id d) as [i|] eqn:Hid; [|now exists d].
    cbn [bind]. intros H. exfalso.
    destruct (lookup key_properties d) as [[| | | | |?|ps]|];
      cbn [py_get bind] in H; try discriminate;
      (destruct (property_text _ key_title) as [t|e] eqn:Et;
       cbn [bind] in H;
       [|injection H as ->; exact (property_text_not_KeyError _ _ Et)]);
      (destruct (property_text _ key_rich_text) as [c|e] eqn:Ec;
       cbn [bind] in H;
       [discriminate
       |injection H as ->; exact (property_text_not_KeyError _ _ Ec)]).
  - intros (d & -> & Hid). unfold extract_page_info.
    cbn [subscript]. now rewrite Hid.
  - intros H. destruct page; try reflexivity. now destruct (H d).
Qed.

(** A raw page whose title is one blank. *)
Example blank_title_projection :
  extract_page_info (raw_note "p9" " " "2024-01-01")
  = Ok (mk_page_info (JStr (u "p9")) [] [] (JStr (u "2024-01-01"))
          (JStr [])).
Proof. reflexivity. Qed.

(** X12: a raw record whose title is made of whitespace only is
    projected with the empty title, and so is in no group, whatever the
    other records are. *)
Theorem blank_title_is_never_grouped (page : json) (info : page_info json) :
  extract_page_info page = Ok info ->
  forallb is_space
    (segments_text (or_default (property_value page key_name key_title) JNull))
  = true ->
  title info = []
  /\ forall p pages k g,
       with_str_time info = Some p ->
       In (k, g) (find_duplicates pages) ->
       ~ In p (members g).
Proof.
  intros H Hblank.
  pose proof (extract_page_info_projectable _ H) as Hp.
  rewrite (extract_page_info_projection _ Hp) in H. injection H as <-.
  assert (Ht : title (projection page) = []).
  { cbn [projection title]. unfold property_string.
    now apply strip_blank. }
  split; [exact Ht|].
  intros p pages k g Hstr Hin Hmem.
  assert (Hpt : title p = []).
  { unfold with_str_time in Hstr.
    destruct (created_time (projection page)); try discriminate.
    injection Hstr as <-. exact Ht. }
  pose proof (members_in_input _ _ _ _ Hin Hmem) as Hm.
  apply titled_In in Hm as [_ Hk].
  apply find_duplicates_In in Hin as (Hne & _).
  rewrite <- Hk, Hpt in Hne. discriminate.
Qed.

Lemma blank_title_is_never_grouped_witness :
  title (projection (raw_note "p9" " " "2024-01-01")) = []
  /\ forall p pages k g,
       with_str_time (projection (raw_note "p9" " " "2024-01-01")) = Some p ->
       In (k, g) (find_duplicates pages) ->
       ~ In p (members g).
Proof.
  exact (blank_title_is_never_grouped
           (raw_note "p9" " " "2024-01-01") _ eq_refl eq_refl).
Defined.


(** ** More on pagination *)

Lemma read_page_errors (res : json) (e : exn) :
  read_page res = Raise e -> e = AttributeError \/ e = TypeError.
Proof.
  unfold read_page.
  destruct res as [| | | | |?|d]; cbn [py_get bind];
    try (intros [= <-]; now left).
  destruct (py_iter _) as [items|e'] eqn:Hi; cbn [bind]; [discriminate|].
  intros [= <-]. right.
  destruct (match lookup key_results d with Some x => x | None => JList [] end);
    cbn [py_iter] in Hi; congruence.
Qed.

Lemma get_all_pages_loop_unreadable (res : json) (e : exn)
      (replies : list (result json)) (all_pages : list json)
      (start_cursor : json) :
  read_page res = Raise e ->
  get_all_pages_loop (Ok res :: replies) all_pages start_cursor
  = ([Query (payload_cursor start_cursor)], Some (Raise e)).
Proof.
  intros E. cbn [get_all_pages_loop query_database bind]. now rewrite E.
Qed.

(** X13: a reply that cannot be read (it is not a dict, or its
    [results] cannot be iterated) ends the run with [AttributeError] or
    [TypeError]: the run has sent its queries only, one per reply taken,
    and no archival request. *)
Theorem unreadable_reply_aborts
        (pre : list json) (bad : json) (rest : list (result json))
        (lower : pystr -> pystr) (a : args) (r : remote)
        (stdin : option pystr) :
  forallb more_page pre = true ->
  readable bad = false ->
  query_replies r = map Ok pre ++ Ok bad :: rest ->
  let out := main lower a r stdin in
  (exists e,
      read_page bad = Raise e
      /\ (e = AttributeError \/ e = TypeError)
      /\ ending out = Crashed e)
  /\ Forall is_query (events out)
  /\ length (events out) = S (length pre)
  /\ report out = [].
Proof.
  intros Hpre Hbad Hr. unfold readable in Hbad.
  destruct (read_page bad) as [?|e] eqn:E; [discriminate|].
  unfold main, get_all_pages. rewrite Hr.
  rewrite (get_all_pages_loop_more _ _ _ _ Hpre).
  rewrite (get_all_pages_loop_unreadable _ _ _ _ _ E). cbn.
  split; [|split; [|split; [|reflexivity]]].
  - exists e. split; [reflexivity|]. split; [|reflexivity].
    exact (read_page_errors _ _ E).
  - apply Forall_app. split; [apply cursor_queries_are_queries|].
    repeat constructor.
  - rewrite length_app, cursor_queries_length. simpl. lia.
Qed.

Lemma unreadable_reply_aborts_witness :
  ending
    (main (fun s => s) (mk_args false true)
       (mk_remote [Ok (reply_page [JInt 1] true (JStr (u "c1")));
                   Ok (JList [])]
          (fun _ _ => Ok JNull))
       None)
  = Crashed AttributeError.
Proof.
  destruct
    (unreadable_reply_aborts
       [reply_page [JInt 1] true (JStr (u "c1"))] (JList []) []
       (fun s => s) (mk_args false true)
       (mk_remote [Ok (reply_page [JInt 1] true (JStr (u "c1")));
                   Ok (JList [])]
          (fun _ _ => Ok JNull))
       None eq_refl eq_refl eq_refl) as [(e & He & _ & Hend) _].
  cbn in He. injection He as <-. exact Hend.
Defined.

Lemma get_all_pages_loop_returns (replies : list (result json))
      (all_pages : list json) (start_cursor : json)
      (sent : list event) (pages : list json) :
  get_all_pages_loop replies all_pages start_cursor
  = (sent, Some (Ok pages)) ->
  exists pre last rest,
    replies = map Ok pre ++ Ok last :: rest
    /\ forallb more_page pre = true
    /\ last_page last = true
    /\ pages = all_pages ++ flat_map page_items (pre ++ [last]).
Proof.
  revert all_pages start_cursor sent.
  induction replies as [|reply replies IH];
    intros all_pages start_cursor sent H; [discriminate|].
  cbn [get_all_pages_loop query_database] in H.
  destruct reply as [res|e]; cbn [bind] in H; [|discriminate].
  assert (Hread : readable res = true).
  { unfold readable. now destruct (read_page res). }
  destruct (read_page_parts _ Hread) as (more & E & Hm).
  rewrite E in H. destruct (truthy more) eqn:Hmore.
  - destruct (get_all_pages_loop replies _ _) as [evs out] eqn:Hloop.
    injection H as _ ->.
    destruct (IH _ _ _ Hloop) as (pre & last & rest & -> & Hpre & Hlast & ->).
    exists (res :: pre), last, rest. cbn [map app forallb flat_map].
    unfold more_page at 1. rewrite Hread, <- Hm, Hpre.
    rewrite <- app_assoc. auto.
  - injection H as _ <-. exists [], res, replies.
    cbn [map app forallb flat_map]. unfold last_page.
    rewrite Hread, <- Hm, app_nil_r. auto.
Qed.

(** X14: [get_all_pages] returns only after a reply whose [has_more] is
    falsy, every reply before it having [has_more] truthy, and what it
    returns is then the pages of these replies, in order. *)
Theorem get_all_pages_returns_after_last_page
        (replies : list (result json)) (sent : list event)
        (pages : list json) :
  get_all_pages replies = (sent, Some (Ok pages)) ->
  exists pre last rest,
    replies = map Ok pre ++ Ok last :: rest
    /\ forallb more_page pre = true
    /\ last_page last = true
    /\ pages = flat_map page_items (pre ++ [last])
    /\ length sent = S (length pre).
Proof.
  intros H. unfold get_all_pages in H. pose proof H as H0.
  apply get_all_pages_loop_returns in H
    as (pre & last & rest & -> & Hpre & Hlast & ->).
  exists pre, last, rest. repeat split; try assumption.
  rewrite (get_all_pages_loop_more _ _ _ _ Hpre) in H0.
  rewrite (get_all_pages_loop_last _ _ _ _ Hlast) in H0.
  injection H0 as <- _.
  rewrite length_app, cursor_queries_length. simpl. lia.
Qed.

Lemma get_all_pages_returns_after_last_page_witness :
  exists pre last rest,
    [Ok (reply_page [JInt 1] true (JStr (u "c1")));
     Ok (reply_page [JInt 2] false JNull);
     Raise RequestException]
    = map Ok pre ++ Ok last :: rest
    /\ forallb more_page pre = true
    /\ last_page last = true
    /\ [JInt 1; JInt 2] = flat_map page_items (pre ++ [last])
    /\ 2 = S (length pre).
Proof.
  exact (get_all_pages_returns_after_last_page
           [Ok (reply_page [JInt 1] true (JStr (u "c1")));
            Ok (reply_page [JInt 2] false JNull);
            Raise RequestException]
           [Query None; Query (Some (JStr (u "c1")))]
           [JInt 1; JInt 2] eq_refl).
Defined.

(** ** More on the run *)

Lemma archive_all_sent (reply : nat -> json -> result json) (n : nat)
      (duplicates : list (pystr * dup_info)) :
  Forall is_archive (fst (fst (archive_all reply n duplicates))).
Proof.
  rewrite archive_all_eq. cbn [fst]. apply Forall_forall.
  intros e He. apply in_map_iff in He as (tp & <- & _). exact I.
Qed.

(** X15: in every mode and for every store, the events of a run are the
    queries of [get_all_pages] followed by archival requests only: no
    query is sent once an archival request has been sent.  Archival
    requests are sent only in a run without [--dry-run] that ends in
    "retirement attempted". *)
Theorem reads_come_before_writes (lower : pystr -> pystr) (a : args)
        (r : remote) (stdin : option pystr) :
  let out := main lower a r stdin in
  exists archivals,
    events out = fst (get_all_pages (query_replies r)) ++ archivals
    /\ Forall is_query (fst (get_all_pages (query_replies r)))
    /\ Forall is_archive archivals
    /\ (archivals <> [] ->
        dry_run a = false /\ ending out = RetirementAttempted).
Proof.
  cbv zeta.
  pose proof (get_all_pages_loop_queries (query_replies r) [] JNull) as Hq.
  fold (get_all_pages (query_replies r)) in Hq.
  destruct (main_cases lower a r stdin)
    as [(He & _ & _)|(Hdry & _ & duplicates & He & _ & Hend)].
  - exists []. rewrite app_nil_r. repeat split; auto; congruence.
  - exists (map attempt (schedule duplicates)). repeat split; auto.
    apply Forall_forall. intros e Hin.
    apply in_map_iff in Hin as (tp & <- & _). exact I.
Qed.

(** X16: in interactive mode, when the operator's answer is not [y]
    (after [strip] and [lower]), or the input is at its end, the run
    sends no archival request and reports none. *)
Theorem declined_run_never_archives (lower : pystr -> pystr) (r : remote)
        (stdin : option pystr) :
  confirmed lower stdin <> Ok true ->
  let out := main lower (mk_args false false) r stdin in
  Forall is_query (events out)
  /\ report out = []
  /\ ending out <> RetirementAttempted.
Proof.
  intros Hno. cbv zeta.
  destruct (main_cases lower (mk_args false false) r stdin)
    as [(He & Hr & Hend)|(_ & Hyes & _)].
  - rewrite He. repeat split; try assumption.
    apply get_all_pages_loop_queries.
  - cbn [auto] in Hyes. contradiction.
Qed.

Lemma declined_run_never_archives_witness :
  let r :=
    mk_remote
      [Ok (reply_page
             [raw_note "1" "A" "2024-01-01"; raw_note "2" "A" "2024-05-05"]
             false JNull)]
      (fun _ _ => Ok JNull) in
  main (fun s => s) (mk_args false false) r (Some (u " n "))
  = mk_run [Query None] [] AbortedByUser
  /\ Forall is_query
       (events (main (fun s => s) (mk_args false false) r (Some (u " n "))))
  /\ report (main (fun s => s) (mk_args false false) r (Some (u " n "))) = []
  /\ ending (main (fun s => s) (mk_args false false) r (Some (u " n ")))
     <> RetirementAttempted.
Proof.
  cbn zeta. split; [reflexivity|].
  apply (declined_run_never_archives (fun s => s)). discriminate.
Defined.

(** X17: in interactive mode, when the operator's answer is [y] (after
    [strip] and [lower]), the run is the unattended run on the same
    store. *)
Theorem accepted_run_is_unattended (lower : pystr -> pystr) (r : remote)
        (stdin stdin' : option pystr) :
  confirmed lower stdin = Ok true ->
  main lower (mk_args false false) r stdin
  = main lower (mk_args false true) r stdin'.
Proof.
  intros Hyes. unfold main. cbn [dry_run auto]. now rewrite Hyes.
Qed.

Lemma accepted_run_is_unattended_witness :
  let r :=
    mk_remote
      [Ok (reply_page
             [raw_note "1" "A" "2024-01-01"; raw_note "2" "A" "2024-05-05"]
             false JNull)]
      (fun _ _ => Ok JNull) in
  main (fun s => s) (mk_args false false) r (Some (u " y "))
  = main (fun s => s) (mk_args false true) r None.
Proof.
  cbn zeta. apply (accepted_run_is_unattended (fun s => s)). reflexivity.
Defined.

(** ** The Grouper inside [main] *)

Lemma with_str_time_title (info : page_info json) (p : page) :
  with_str_time info = Some p -> title p = title info.
Proof.
  unfold with_str_time. destruct (created_time info); try discriminate.
  now intros [= <-].
Qed.

Lemma all_with_str_time_cons (info : page_info json)
      (infos : list (page_info json)) (pages : list page) :
  all_with_str_time (info :: infos) = Some pages ->
  exists p ps,
    pages = p :: ps
    /\ with_str_time info = Some p
    /\ all_with_str_time infos = Some ps.
Proof.
  cbn [all_with_str_time].
  destruct (with_str_time info) as [p|]; [|discriminate].
  destruct (all_with_str_time infos) as [ps|]; [|discriminate].
  intros [= <-]. now exists p, ps.
Qed.

Lemma all_with_str_time_length (infos : list (page_info json))
      (pages : list page) :
  all_with_str_time infos = Some pages -> length infos = length pages.
Proof.
  revert pages; induction infos as [|info infos IH]; intros pages H.
  - now injection H as <-.
  - apply all_with_str_time_cons in H as (p & ps & -> & _ & Hps).
    cbn [length]. f_equal. now apply IH.
Qed.

Lemma all_with_str_time_keyed (infos : list (page_info json))
      (pages : list page) :
  all_with_str_time infos = Some pages -> keyed_in infos = keyed pages.
Proof.
  unfold keyed_in, keyed.
  revert pages; induction infos as [|info infos IH]; intros pages H.
  - now injection H as <-.
  - apply all_with_str_time_cons in H as (p & ps & -> & Hp & Hps).
    cbn [filter]. rewrite (with_str_time_title _ _ Hp).
    destruct (nonempty (title info)); cbn [map];
      rewrite ?(with_str_time_title _ _ Hp); now rewrite (IH _ Hps).
Qed.

Lemma all_with_str_time_titled (k : pystr) (infos : list (page_info json))
      (pages : list page) :
  all_with_str_time infos = Some pages ->
  all_with_str_time (titled_in k infos) = Some (titled k pages).
Proof.
  unfold titled_in, titled.
  revert pages; induction infos as [|info infos IH]; intros pages H.
  - now injection H as <-.
  - apply all_with_str_time_cons in H as (p & ps & -> & Hp & Hps).
    cbn [filter]. rewrite (with_str_time_title _ _ Hp).
    destruct (pystr_eqb (title info) k); [|now apply IH].
    cbn [all_with_str_time]. now rewrite Hp, (IH _ Hps).
Qed.

Lemma duplicates_of_info_typed (k : pystr) (l : list (page_info json))
      (typed : list page) :
  all_with_str_time l = Some typed ->
  duplicates_of_info (k, l) = Some (duplicates_of (k, typed)).
Proof.
  intros H. pose proof (all_with_str_time_length _ _ H) as Hlen.
  unfold duplicates_of_info.
  destruct l as [|a [|b l]].
  - now destruct typed.
  - destruct typed as [|x [|y typed]]; try discriminate. reflexivity.
  - now rewrite H.
Qed.

(** On records whose [created_time] are all strings, the Grouper of
    [main] is [find_duplicates]. *)
Lemma find_duplicates_info_typed (infos : list (page_info json))
      (pages : list page) :
  all_with_str_time infos = Some pages ->
  find_duplicates_info infos = Some (find_duplicates pages).
Proof.
  intros H. unfold find_duplicates_info.
  rewrite by_title_eq_in, find_duplicates_eq.
  rewrite (all_with_str_time_keyed _ _ H).
  induction (first_seen (keyed pages)) as [|k ks IH]; [reflexivity|].
  cbn [map collect_duplicates flat_map].
  rewrite (duplicates_of_info_typed k _ _ (all_with_str_time_titled k _ _ H)).
  now rewrite IH.
Qed.

(** When no non-empty title is carried twice, the Grouper of [main]
    reports nothing, whatever the [created_time] are. *)
Lemma find_duplicates_info_nil (infos : list (page_info json)) :
  (forall k, nonempty k = true -> length (titled_in k infos) <= 1) ->
  find_duplicates_info infos = Some [].
Proof.
  intros H. unfold find_duplicates_info. rewrite by_title_eq_in.
  assert (Hks : forall k, In k (first_seen (keyed_in infos)) ->
                          length (titled_in k infos) <= 1).
  { intros k Hk. apply H.
    apply (proj1 (first_seen_In _ _)) in Hk.
    now apply (proj1 (keyed_In_in _ _)) in Hk as [Hk _]. }
  induction (first_seen (keyed_in infos)) as [|k ks IH]; [reflexivity|].
  cbn [map collect_duplicates].
  rewrite IH by (intros k' Hk'; apply Hks; now right).
  specialize (Hks k (or_introl eq_refl)).
  unfold duplicates_of_info.
  destruct (titled_in k infos) as [|a [|b l]]; try reflexivity.
  simpl in Hks. lia.
Qed.

(** X18: when the projected records carry no non-empty title twice, the
    run ends in "no duplicates found" in every mode, having sent its
    queries only; the operator is not asked.  Nothing is asked of the
    [created_time] of the records. *)
Theorem distinct_titles_end_the_run (lower : pystr -> pystr) (a : args)
        (r : remote) (stdin : option pystr) (queries : list event)
        (raws : list json) (infos : list (page_info json)) :
  get_all_pages (query_replies r) = (queries, Some (Ok raws)) ->
  mapM extract_page_info raws = Ok infos ->
  (forall k, nonempty k = true -> length (titled_in k infos) <= 1) ->
  main lower a r stdin = mk_run queries [] NoDuplicates.
Proof.
  intros Hq Hm Hdistinct. unfold main.
  now rewrite Hq, Hm, (find_duplicates_info_nil infos Hdistinct).
Qed.

Lemma distinct_titles_end_the_run_witness :
  main (fun s => s) (mk_args false true)
    (mk_remote
       [Ok (reply_page
              [JDict [(key_id, JStr (u "1"));
                      (key_properties,
                       JDict [(key_name,
                               JDict [(key_title,
                                       JList [JDict [(key_plain_text,
                                                      JStr (u "A"))]])])]);
                      (key_created_time, JNull)]]
              false JNull)]
       (fun _ _ => Ok JNull))
    None
  = mk_run [Query None] [] NoDuplicates.
Proof.
  apply (distinct_titles_end_the_run (fun s => s) (mk_args false true)
           (mk_remote
              [Ok (reply_page
                     [JDict [(key_id, JStr (u "1"));
                             (key_properties,
                              JDict [(key_name,
                                      JDict [(key_title,
                                              JList [JDict [(key_plain_text,
                                                             JStr (u "A"))]])])]);
                             (key_created_time, JNull)]]
                     false JNull)]
              (fun _ _ => Ok JNull))
           None [Query None]
           [JDict [(key_id, JStr (u "1"));
                   (key_properties,
                    JDict [(key_name,
                            JDict [(key_title,
                                    JList [JDict [(key_plain_text,
                                                   JStr (u "A"))]])])]);
                   (key_created_time, JNull)]]
           [mk_page_info (JStr (u "1")) (u "A") [] JNull (JStr [])]
           eq_refl eq_refl).
  intros k _. unfold titled_in. cbn [filter].
  match goal with |- context [if ?b then _ else _] => destruct b end;
    simpl; lia.
Defined.

(** X19: when every projected record has a string [created_time], some
    non-empty title is carried twice, and the titles, dates and previews
    of the summary can be printed, an unattended run sends the queries,
    then one archival request per record of the [remove] lists of
    [find_duplicates], in the order of the groups, with the id of that
    record; it prints one line per request and ends in "retirement
    attempted". *)
Theorem unattended_run_archives_the_schedule (lower : pystr -> pystr)
        (r : remote) (stdin : option pystr) (queries : list event)
        (raws : list json) (infos : list (page_info json))
        (pages : list page) (total : nat) :
  get_all_pages (query_replies r) = (queries, Some (Ok raws)) ->
  mapM extract_page_info raws = Ok infos ->
  all_with_str_time infos = Some pages ->
  find_duplicates pages <> [] ->
  print_summary (find_duplicates pages) = Ok total ->
  main lower (mk_args false true) r stdin
  = mk_run
      (queries ++ map attempt (schedule (find_duplicates pages)))
      (lines_of (archive_reply r) 0 (schedule (find_duplicates pages)))
      RetirementAttempted.
Proof.
  intros Hq Hm Ht Hdup Hprint. unfold main.
  rewrite Hq, Hm, (find_duplicates_info_typed _ _ Ht).
  destruct (find_duplicates pages) as [|kg dups]; [contradiction|].
  rewrite Hprint. cbn [dry_run auto]. now rewrite archive_all_eq.
Qed.

Lemma unattended_run_archives_the_schedule_witness :
  main (fun s => s) (mk_args false true)
    (mk_remote
       [Ok (reply_page
              [raw_note "1" "A" "2024-01-01"; raw_note "2" "A" "2024-05-05"]
              false JNull)]
       (fun _ _ => Raise RequestException))
    None
  = mk_run [Query None; Archive (JStr (u "1"))]
      [ArchiveFailed (u "A") RequestException] RetirementAttempted.
Proof.
  apply (unattended_run_archives_the_schedule (fun s => s)
           (mk_remote
              [Ok (reply_page
                     [raw_note "1" "A" "2024-01-01";
                      raw_note "2" "A" "2024-05-05"]
                     false JNull)]
              (fun _ _ => Raise RequestException))
           None [Query None]
           [raw_note "1" "A" "2024-01-01"; raw_note "2" "A" "2024-05-05"]
           [mk_page_info (JStr (u "1")) (u "A") [] (JStr (u "2024-01-01"))
              (JStr []);
            mk_page_info (JStr (u "2")) (u "A") [] (JStr (u "2024-05-05"))
              (JStr [])]
           [mk_page_info (JStr (u "1")) (u "A") [] (u "2024-01-01")
              (JStr []);
            mk_page_info (JStr (u "2")) (u "A") [] (u "2024-05-05")
              (JStr [])]
           1 eq_refl eq_refl eq_refl).
  - discriminate.
  - reflexivity.
Defined.

(** ** More on the order of a group *)

Lemma sorted_newest_first_fixed (l : list page) :
  StronglySorted newer_or_same l -> sorted_newest_first l = l.
Proof.
  induction 1 as [|x l Hl IH Hx]; [reflexivity|].
  rewrite sorted_newest_first_cons, IH.
  destruct l as [|y l]; [reflexivity|].
  cbn [insert_newest_first]. inversion Hx as [|? ? Hy _]; subst.
  unfold newer_or_same, pystr_le in Hy. apply negb_true_iff in Hy.
  now rewrite Hy.
Qed.

(** X20: when the records of a title already come newest first in the
    input (so, too, when they all have the same [created_time]), the
    group keeps the first of them and removes the others in input
    order. *)
Theorem sorted_input_keeps_its_order (pages : list page) (k : pystr)
        (g : dup_info) :
  In (k, g) (find_duplicates pages) ->
  StronglySorted newer_or_same (titled k pages) ->
  keep g :: remove g = titled k pages.
Proof.
  intros Hin Hsorted. apply find_duplicates_In in Hin as (_ & _ & Hs).
  now rewrite <- Hs, sorted_newest_first_fixed.
Qed.

Lemma sorted_input_keeps_its_order_witness :
  let pages := [note "A" "2024-01-01"; note "B" "2024-03-03";
                note "B" "2024-02-02"; note "B" "2024-02-02"] in
  let g := mk_dup_info (note "B" "2024-03-03")
             [note "B" "2024-02-02"; note "B" "2024-02-02"] in
  keep g :: remove g = titled (u "B") pages.
Proof.
  cbn zeta.
  apply (sorted_input_keeps_its_order
           [note "A" "2024-01-01"; note "B" "2024-03-03";
            note "B" "2024-02-02"; note "B" "2024-02-02"] (u "B")).
  - left; reflexivity.
  - repeat constructor.
Defined.

(** ** A second run *)

Lemma keyed_once (k : pystr) (l : list (pystr * dup_info)) :
  NoDup (map fst l) ->
  length (filter (fun kg => pystr_eqb (fst kg) k) l) <= 1.
Proof.
  induction l as [|[k' g] l IH]; [simpl; lia|].
  cbn [map fst]. intros Hnd. inversion Hnd as [|? ? Hk' Hl]; subst.
  cbn [filter fst]. destruct (pystr_eqb_spec k' k) as [->|Hne].
  - cbn [length].
    assert (E : filter (fun kg => pystr_eqb (fst kg) k) l = []).
    { destruct (filter _ l) as [|[k2 g2] rest] eqn:Ef; [reflexivity|].
      exfalso. apply Hk'.
      assert (Hin : In (k2, g2) (filter (fun kg => pystr_eqb (fst kg) k) l))
        by (rewrite Ef; now left).
      apply filter_In in Hin as [Hin Hk2]. cbn [fst] in Hk2.
      destruct (pystr_eqb_spec k2 k) as [->|]; [|discriminate].
      now apply (in_map fst) in Hin. }
    rewrite E. simpl. lia.
  - now apply IH.
Qed.

Lemma titled_keeps (pages : list page) (k : pystr) :
  titled k (map (fun kg => keep (snd kg)) (find_duplicates pages))
  = map (fun kg => keep (snd kg))
      (filter (fun kg => pystr_eqb (fst kg) k) (find_duplicates pages)).
Proof.
  assert (H : forall kg, In kg (find_duplicates pages) ->
                         title (keep (snd kg)) = fst kg).
  { intros [k' g] Hin. cbn [fst snd].
    apply (titled_In k' pages). apply (members_in_input _ _ _ _ Hin).
    now left. }
  unfold titled.
  induction (find_duplicates pages) as [|kg l IH]; [reflexivity|].
  cbn [map filter]. rewrite (H kg (or_introl eq_refl)).
  rewrite IH by (intros kg' Hkg'; apply H; now right).
  now destruct (pystr_eqb (fst kg) k).
Qed.

Lemma no_member_nil {A} (l : list A) : (forall x, ~ In x l) -> l = [].
Proof.
  destruct l as [|a l]; [reflexivity|]. intros H.
  destruct (H a). now left.
Qed.

Lemma filter_filter_length {A} (f g : A -> bool) (l : list A) :
  length (filter g (filter f l)) <= length (filter g l).
Proof.
  induction l as [|a l IH]; [simpl; lia|].
  cbn [filter]. destruct (f a); cbn [filter]; destruct (g a);
    cbn [length]; lia.
Qed.

(** X21: once every record of every [remove] list is archived, the
    records that are left hold no duplicates: [find_duplicates] returns
    the empty dict on them. *)
Theorem second_run_finds_nothing (pages : list page) :
  find_duplicates (survivors pages) = [].
Proof.
  apply find_duplicates_nil. intros k Hne.
  unfold survivors, titled. rewrite filter_app, length_app.
  fold (titled k (map (fun kg => keep (snd kg)) (find_duplicates pages))).
  rewrite titled_keeps, length_map.
  pose proof (keyed_once k _ (find_duplicates_keys_NoDup pages)) as Hone.
  destruct (shared pages k) eqn:Hsh.
  - rewrite (no_member_nil
               (filter (fun p => pystr_eqb (title p) k)
                  (filter (fun p => negb (nonempty (title p)
                                          && shared pages (title p)))
                     pages))).
    + simpl. lia.
    + intros p Hp. apply filter_In in Hp as [Hp Hk].
      apply filter_In in Hp as [_ Hp].
      destruct (pystr_eqb_spec (title p) k) as [E|]; [|discriminate].
      rewrite E, Hne, Hsh in Hp. discriminate.
  - rewrite (no_member_nil
               (filter (fun kg => pystr_eqb (fst kg) k)
                  (find_duplicates pages))).
    + cbn [length]. rewrite Nat.add_0_r.
      etransitivity; [apply filter_filter_length|].
      unfold shared in Hsh. apply Nat.ltb_ge in Hsh. exact Hsh.
    + intros [k' g] Hin. apply filter_In in Hin as [Hin Hk].
      cbn [fst] in Hk.
      destruct (pystr_eqb_spec k' k) as [->|]; [|discriminate].
      apply find_duplicates_In in Hin as (_ & Hlen & _).
      unfold shared in Hsh. apply Nat.ltb_ge in Hsh. lia.
Qed.

Example second_run_scenario :
  survivors groceries_input = [note "Groceries" "2024-03-15"]
  /\ find_duplicates (survivors groceries_input) = [].
Proof. split; reflexivity. Qed.

(** ** Whitespace around a title *)

Lemma strip_split (s : pystr) :
  exists sp1 sp2, s = sp1 ++ strip s ++ sp2 /\ blank sp1 /\ blank sp2.
Proof.
  destruct (lstrip_split s) as (sp1 & E1 & H1).
  destruct (rstrip_split (lstrip s)) as (sp2 & E2 & H2).
  exists sp1, sp2. unfold strip, blank. now rewrite <- E2.
Qed.

Lemma lstrip_blank_prefix (sp x : pystr) :
  blank sp -> lstrip (sp ++ x) = lstrip x.
Proof.
  unfold blank. induction sp as [|c sp IH]; [reflexivity|].
  cbn [forallb app lstrip]. intros H.
  apply andb_true_iff in H as [-> H]. now apply IH.
Qed.

Lemma lstrip_blank (s : pystr) : blank s -> lstrip s = [].
Proof.
  intros H. rewrite <- (app_nil_r s). now rewrite lstrip_blank_prefix.
Qed.

Lemma lstrip_app (a b : pystr) :
  lstrip a <> [] -> lstrip (a ++ b) = lstrip a ++ b.
Proof.
  induction a as [|c a IH]; [now intros []|].
  cbn [app lstrip]. destruct (is_space c); [exact IH|reflexivity].
Qed.

Lemma blank_app (a b : pystr) : blank a -> blank b -> blank (a ++ b).
Proof.
  unfold blank. intros Ha Hb. rewrite forallb_app, Ha, Hb. reflexivity.
Qed.

Lemma blank_rev (a : pystr) : blank a -> blank (rev a).
Proof.
  unfold blank. rewrite !forallb_forall. intros H x Hx.
  apply H. now apply in_rev.
Qed.

Lemma rstrip_blank_suffix (x sp : pystr) :
  blank sp -> rstrip (x ++ sp) = rstrip x.
Proof.
  intros H. unfold rstrip. rewrite rev_app_distr.
  now rewrite lstrip_blank_prefix by now apply blank_rev.
Qed.

(** [strip] does not see the whitespace around a string. *)
Lemma strip_padded (sp1 s sp2 : pystr) :
  blank sp1 -> blank sp2 -> strip (sp1 ++ s ++ sp2) = strip s.
Proof.
  intros H1 H2. unfold strip. rewrite (lstrip_blank_prefix sp1 _ H1).
  destruct (lstrip s) as [|c rest] eqn:E.
  - destruct (lstrip_split s) as (sp & Es & Hsp).
    rewrite E, app_nil_r in Es. subst sp.
    now rewrite (lstrip_blank (s ++ sp2)) by now apply blank_app.
  - rewrite lstrip_app by (rewrite E; discriminate).
    rewrite E. now apply rstrip_blank_suffix.
Qed.

(** X22: the Projector only takes whitespace away, and only at the two
    ends: the concatenated text of the title segments is the projected
    title between two runs of whitespace, and so for the content. *)
Theorem stripping_keeps_the_text (page : json) (info : page_info json) :
  extract_page_info page = Ok info ->
  (exists sp1 sp2,
      raw_title page = sp1 ++ title info ++ sp2 /\ blank sp1 /\ blank sp2)
  /\ (exists sp1 sp2,
         raw_content page = sp1 ++ content info ++ sp2
         /\ blank sp1 /\ blank sp2).
Proof.
  intros H. pose proof (extract_page_info_projectable _ H) as Hp.
  rewrite (extract_page_info_projection _ Hp) in H. injection H as <-.
  cbn [projection title content]. unfold property_string.
  split; apply strip_split.
Qed.

Lemma stripping_keeps_the_text_witness :
  (exists sp1 sp2,
      raw_title sample_raw = sp1 ++ u "Groceries" ++ sp2
      /\ blank sp1 /\ blank sp2)
  /\ (exists sp1 sp2,
         raw_content sample_raw = sp1 ++ [] ++ sp2 /\ blank sp1 /\ blank sp2).
Proof.
  exact (stripping_keeps_the_text sample_raw _ eq_refl).
Defined.

(** X23: two raw records whose title texts differ only by whitespace at
    the two ends are projected with the same title, so they fall in the
    same group. *)
Theorem titles_match_up_to_whitespace (page page' : json)
        (info info' : page_info json) (sp1 sp2 : pystr) :
  extract_page_info page = Ok info ->
  extract_page_info page' = Ok info' ->
  raw_title page' = sp1 ++ raw_title page ++ sp2 ->
  blank sp1 -> blank sp2 ->
  title info' = title info.
Proof.
  intros H H' E H1 H2.
  pose proof (extract_page_info_projectable _ H) as Hp.
  pose proof (extract_page_info_projectable _ H') as Hp'.
  rewrite (extract_page_info_projection _ Hp) in H. injection H as <-.
  rewrite (extract_page_info_projection _ Hp') in H'. injection H' as <-.
  cbn [projection title]. unfold property_string.
  fold (raw_title page) (raw_title page'). rewrite E.
  now apply strip_padded.
Qed.

Lemma titles_match_up_to_whitespace_witness :
  title (projection (raw_note "2" " Groceries  " "2024-05-05"))
  = title (projection (raw_note "1" "Groceries" "2024-01-01")).
Proof.
  exact (titles_match_up_to_whitespace
           (raw_note "1" "Groceries" "2024-01-01")
           (raw_note "2" " Groceries  " "2024-05-05")
           _ _ (u " ") (u "  ") eq_refl eq_refl eq_refl eq_refl eq_refl).
Defined.
